(** * namaco: the feature preprocessors of [preprocess.py]

    A shallow embedding of [tokenize], [normalize_number],
    [get_character_type], [StaticPreprocessor] and [DynamicPreprocessor],
    and the properties of the feature streams they produce.

    Python values are modelled as follows.
    - A [str] is the list of its Unicode code points; a character is a
      one-element [str] where Python uses it as a dictionary key.
    - A [dict] with string keys is an association list in insertion order
      with Python's update rule (an existing key keeps its position).
    - Integers are [Z]; [np.array(..., dtype=np.int32)] stores each value
      modulo 2^32 in the signed range.
    - Methods of [StaticPreprocessor] run in a state-and-exception monad
      over the object, so that what a method writes to [self] is visible.
    - What the interpreter and MeCab provide (the Unicode predicates,
      [str.lower], the tagger's output, the iteration order of a [set])
      is the interface [PyRuntime]. *)

From Stdlib Require Import String Ascii.
From Stdlib Require Import List ZArith NArith Lia Bool.
Import ListNotations.


Open Scope Z_scope.

(** ** Strings *)

Definition char := N.
Definition str := list char.

Definition of_string (s : string) : str :=
  map N_of_ascii (list_ascii_of_string s).

Definition str_eqb (a b : str) : bool :=
  if list_eq_dec N.eq_dec a b then true else false.

Definition str_eq_dec : forall a b : str, {a = b} + {a <> b} :=
  list_eq_dec N.eq_dec.

Definition UNK : str := Eval cbv in of_string "<UNK>".
Definition PAD : str := Eval cbv in of_string "<PAD>".

(** [sep.join(parts)] *)
Fixpoint join (sep : str) (parts : list str) : str :=
  match parts with
  | [] => []
  | [p] => p
  | p :: rest => p ++ sep ++ join sep rest
  end.

(** [s.split(sep)] for a one-character separator: never the empty list. *)
Fixpoint split_on (sep : char) (cur : str) (s : str) : list str :=
  match s with
  | [] => [rev cur]
  | c :: r =>
      if N.eqb c sep then rev cur :: split_on sep [] r
      else split_on sep (c :: cur) r
  end.

Definition split (sep : char) (s : str) : list str := split_on sep [] s.

(** The line boundaries of [str.splitlines]. *)
Definition is_linebreak (c : char) : bool :=
  existsb (N.eqb c)
    [0x0A; 0x0B; 0x0C; 0x0D; 0x1C; 0x1D; 0x1E; 0x85; 0x2028; 0x2029]%N.

Fixpoint splitlines_from (cur : str) (s : str) : list str :=
  match s with
  | [] => match cur with [] => [] | _ => [rev cur] end
  | c :: r =>
      if is_linebreak c then
        rev cur ::
          match r with
          | c' :: r' =>
              if (N.eqb c 0x0D%N && N.eqb c' 0x0A%N)%bool
              then splitlines_from [] r'
              else splitlines_from [] r
          | [] => splitlines_from [] r
          end
      else splitlines_from (c :: cur) r
  end.

Definition splitlines (s : str) : list str := splitlines_from [] s.

Fixpoint dropwhile (p : char -> bool) (s : str) : str :=
  match s with
  | [] => []
  | c :: r => if p c then dropwhile p r else s
  end.

(** ** Exceptions and results *)

Inductive exn := KeyError | IndexError | TypeError | ValueError | AssertionError.

Inductive result (A : Type) :=
| Ok (a : A)
| Raise (e : exn).

Arguments Ok {A} a.
Arguments Raise {A} e.

(** ** The interpreter and the tagger *)

Class PyRuntime := {
  (** [ch.isspace()], [ch.isdigit()], [ch.islower()], [ch.isupper()] *)
  isspace : char -> bool;
  isdigit : char -> bool;
  islower : char -> bool;
  isupper : char -> bool;
  (** [text.lower()] *)
  lower : str -> str;
  (** [t.parse(text)] of the MeCab tagger *)
  mecab_parse : str -> str;
  (** the order in which [set(l)] is iterated *)
  set_iter : list str -> list str;
  set_iter_NoDup : forall l, NoDup (set_iter l);
  set_iter_In : forall l x, In x (set_iter l) <-> In x l
}.

(** ** Module-level functions *)

Section Functions.
Context {RT : PyRuntime}.

(** [text.rstrip()] *)
Definition rstrip (s : str) : str := rev (dropwhile isspace (rev s)).

(** The body of the loop of [tokenize], with the two lists it appends to. *)
Fixpoint tokenize_chunks (chunks : list str) (words poses : list str)
  : result (list str * list str) :=
  match chunks with
  | [] => Ok (words, poses)
  | chunk :: rest =>
      match chunk with
      | [] => tokenize_chunks rest words poses
      | _ =>
          let chunk_splitted := split 0x09%N chunk in
          match nth_error chunk_splitted 0, nth_error chunk_splitted 1 with
          | Some surface, Some feature =>
              let feature := split 0x2C%N feature in
              let pos := join [0x2D%N] (firstn 3 feature) in
              tokenize_chunks rest (words ++ [surface]) (poses ++ [pos])
          | _, _ => Raise IndexError
          end
      end
  end.

Definition tokenize (text : str) : result (list str * list str) :=
  let chunks := removelast (splitlines (mecab_parse (rstrip text))) in
  tokenize_chunks chunks [] [].

(** [re.sub(r'[0-9０１２３４５６７８９]', r'0', text)] *)
Definition is_number_char (c : char) : bool :=
  ((0x30 <=? c) && (c <=? 0x39) || (0xFF10 <=? c) && (c <=? 0xFF19))%N%bool.

Definition normalize_number (text : str) : str :=
  map (fun c => if is_number_char c then 0x30%N else c) text.

Definition is_hiragana (ch : char) : bool :=
  ((0x3040 <=? ch) && (ch <=? 0x309F))%N%bool.

Definition is_katakana (ch : char) : bool :=
  ((0x30A0 <=? ch) && (ch <=? 0x30FF))%N%bool.

Definition get_character_type (ch : char) : Z :=
  if isspace ch then 1
  else if isdigit ch then 2
  else if islower ch then 3
  else if isupper ch then 4
  else if is_hiragana ch then 5
  else if is_katakana ch then 6
  else 7.

End Functions.

(** ** Dictionaries *)

Definition dict := list (str * Z).

(** [d.get(k)] *)
Fixpoint dict_get (d : dict) (k : str) : option Z :=
  match d with
  | [] => None
  | (k', v) :: rest => if str_eqb k' k then Some v else dict_get rest k
  end.

(** [k in d] *)
Definition dict_mem (d : dict) (k : str) : bool :=
  match dict_get d k with Some _ => true | None => false end.

(** [d[k] = v]: an existing key keeps its place, a new key goes last. *)
Fixpoint dict_set (d : dict) (k : str) (v : Z) : dict :=
  match d with
  | [] => [(k, v)]
  | (k', v') :: rest =>
      if str_eqb k' k then (k', v) :: rest else (k', v') :: dict_set rest k v
  end.

(** [len(d)] *)
Definition dict_len (d : dict) : Z := Z.of_nat (length d).

Definition keys (d : dict) : list str := map fst d.
Definition values (d : dict) : list Z := map snd d.

(** A dictionary with integer keys, as built by [inverse_transform]. *)
Definition idict := list (Z * str).

Fixpoint idict_get (d : idict) (k : Z) : option str :=
  match d with
  | [] => None
  | (k', v) :: rest => if Z.eqb k' k then Some v else idict_get rest k
  end.

Fixpoint idict_set (d : idict) (k : Z) (v : str) : idict :=
  match d with
  | [] => [(k, v)]
  | (k', v') :: rest =>
      if Z.eqb k' k then (k', v) :: rest else (k', v') :: idict_set rest k v
  end.

(** [{i: c for c, i in d.items()}] *)
Definition invert (d : dict) : idict :=
  fold_left (fun m ci => idict_set m (snd ci) (fst ci)) d [].

(** ** Lists and arrays *)

(** [l[i] = v] with Python's negative indices. *)
Fixpoint set_nth (l : list Z) (n : nat) (v : Z) : list Z :=
  match l, n with
  | [], _ => []
  | _ :: r, O => v :: r
  | x :: r, S n' => x :: set_nth r n' v
  end.

Definition list_setitem (l : list Z) (i : Z) (v : Z) : result (list Z) :=
  let n := Z.of_nat (length l) in
  let j := if i <? 0 then i + n else i in
  if (0 <=? j) && (j <? n) then Ok (set_nth l (Z.to_nat j) v)
  else Raise IndexError.

(** The value an [int32] cell holds after storing [z]. *)
Definition int32 (z : Z) : Z := (z + 2 ^ 31) mod 2 ^ 32 - 2 ^ 31.

(** [np.array(l, dtype=np.int32)] *)
Definition np_int32 (l : list Z) : list Z := map int32 l.

(** [list(itertools.chain( *ll))] *)
Definition chain {A : Type} (ll : list (list A)) : list A := concat ll.

(** ** The StaticPreprocessor object *)

Record StaticPreprocessor := {
  _lowercase : bool;
  _num_norm : bool;
  _vocab_init : dict;
  word_dic : dict;
  char_dic : dict;
  pos_dic : dict;
  label_dic : dict;
  bies_dic : dict;
  char_type_dic : dict
}.

Definition key_B : str := Eval cbv in of_string "B".
Definition key_I : str := Eval cbv in of_string "I".
Definition key_E : str := Eval cbv in of_string "E".
Definition key_S : str := Eval cbv in of_string "S".

(** [StaticPreprocessor.__init__] *)
Definition StaticPreprocessor_init
    (lowercase num_norm : bool) (vocab_init : option dict)
  : StaticPreprocessor :=
  {| _lowercase := lowercase;
     _num_norm := num_norm;
     _vocab_init := match vocab_init with
                    | Some ((_ :: _) as d) => d
                    | _ => []
                    end;
     word_dic := [(PAD, 0); (UNK, 1)];
     char_dic := [(PAD, 0); (UNK, 1)];
     pos_dic := [(PAD, 0); (UNK, 1)];
     label_dic := [(PAD, 0)];
     bies_dic := [(key_B, 1); (key_I, 2); (key_E, 3); (key_S, 4)];
     char_type_dic := [(PAD, 0)] |}.

(** The dictionary attributes of the object. *)
Inductive attr :=
| a_word_dic | a_char_dic | a_pos_dic | a_label_dic | a_bies_dic
| a_char_type_dic.

Definition getattr (a : attr) (self : StaticPreprocessor) : dict :=
  match a with
  | a_word_dic => word_dic self
  | a_char_dic => char_dic self
  | a_pos_dic => pos_dic self
  | a_label_dic => label_dic self
  | a_bies_dic => bies_dic self
  | a_char_type_dic => char_type_dic self
  end.

Definition setattr (a : attr) (d : dict) (self : StaticPreprocessor)
  : StaticPreprocessor :=
  let (lc, nn, vi, wd, cd, pd, ld, bd, td) := self in
  match a with
  | a_word_dic => Build_StaticPreprocessor lc nn vi d cd pd ld bd td
  | a_char_dic => Build_StaticPreprocessor lc nn vi wd d pd ld bd td
  | a_pos_dic => Build_StaticPreprocessor lc nn vi wd cd d ld bd td
  | a_label_dic => Build_StaticPreprocessor lc nn vi wd cd pd d bd td
  | a_bies_dic => Build_StaticPreprocessor lc nn vi wd cd pd ld d td
  | a_char_type_dic => Build_StaticPreprocessor lc nn vi wd cd pd ld bd d
  end.

Definition attr_eqb (a b : attr) : bool :=
  match a, b with
  | a_word_dic, a_word_dic | a_char_dic, a_char_dic | a_pos_dic, a_pos_dic
  | a_label_dic, a_label_dic | a_bies_dic, a_bies_dic
  | a_char_type_dic, a_char_type_dic => true
  | _, _ => false
  end.

(** ** Methods: state and exceptions

    A method of an object of class [S] maps the object's state to a result
    or a raised exception, and to the state it leaves behind. *)

Definition M (S A : Type) : Type := S -> result A * S.

Definition ret {S A} (a : A) : M S A := fun self => (Ok a, self).

Definition bind {S A B} (m : M S A) (f : A -> M S B) : M S B :=
  fun self =>
    match m self with
    | (Ok a, self') => f a self'
    | (Raise e, self') => (Raise e, self')
    end.

Definition raise {S A} (e : exn) : M S A := fun self => (Raise e, self).

(** A call of a function that does not touch the object. *)
Definition call {S A} (r : result A) : M S A := fun self => (r, self).

(** Reading an attribute. *)
Definition read {S A} (f : S -> A) : M S A :=
  fun self => (Ok (f self), self).

Declare Scope py_scope.
Delimit Scope py_scope with py.
Notation "x <- m ;; k" := (bind m (fun x => k))
  (at level 61, m at next level, right associativity) : py_scope.
Notation "m ;;; k" := (bind m (fun _ => k))
  (at level 61, right associativity) : py_scope.
Open Scope py_scope.

(** [for x in l: body(x)] *)
Fixpoint for_ {S A} (l : list A) (body : A -> M S unit) : M S unit :=
  match l with
  | [] => ret tt
  | x :: rest => body x ;;; for_ rest body
  end.

(** [[f(x) for x in l]] *)
Fixpoint comprehension {S A B} (f : A -> M S B) (l : list A)
  : M S (list B) :=
  match l with
  | [] => ret []
  | x :: rest =>
      y <- f x ;;
      ys <- comprehension f rest ;;
      ret (y :: ys)
  end.

(** [assert b] *)
Definition assert {S} (b : bool) : M S unit :=
  if b then ret tt else raise AssertionError.

Definition SP := M StaticPreprocessor.

(** [k in self.a] *)
Definition contains (a : attr) (k : str) : SP bool :=
  read (fun self => dict_mem (getattr a self) k).

(** [self.a[k]] *)
Definition getitem (a : attr) (k : str) : SP Z :=
  fun self =>
    match dict_get (getattr a self) k with
    | Some v => (Ok v, self)
    | None => (Raise KeyError, self)
    end.

(** [self.a.get(k, default)] *)
Definition get_or (a : attr) (k : str) (default : Z) : SP Z :=
  read (fun self =>
          match dict_get (getattr a self) k with
          | Some v => v
          | None => default
          end).

(** [len(self.a)] *)
Definition len_of (a : attr) : SP Z :=
  read (fun self => dict_len (getattr a self)).

(** [self.a[k] = v] *)
Definition setitem (a : attr) (k : str) (v : Z) : SP unit :=
  fun self => (Ok tt, setattr a (dict_set (getattr a self) k v) self).

(** ** StaticPreprocessor *)

(** The five lists [transform] appends to, one array per document. *)
Record streams := {
  x_words : list (list Z);
  x_chars : list (list Z);
  x_bies : list (list Z);
  x_poses : list (list Z);
  x_types : list (list Z)
}.

Section Static.
Context {RT : PyRuntime}.

(** [self.a[k] = len(self.a)] *)
Definition register (a : attr) (k : str) : SP unit :=
  n <- len_of a ;;
  setitem a k n.

(** The text both [fit] and [transform] tokenize. *)
Definition normalized (doc : list str) : SP str :=
  let text := join [] doc in
  lc <- read _lowercase ;;
  let text := if lc then lower text else text in
  nn <- read _num_norm ;;
  let text := if nn then normalize_number text else text in
  ret text.

Definition fit_doc (doc : list str) : SP unit :=
  text <- normalized doc ;;
  wp <- call (tokenize text) ;;
  let (words, poses) := wp : list str * list str in
  for_ words (fun w =>
    known <- contains a_word_dic w ;;
    if known : bool then ret tt
    else
      register a_word_dic w ;;;
      for_ w (fun c =>
        known <- contains a_char_dic [c] ;;
        if known : bool then ret tt
        else register a_char_dic [c])) ;;;
  for_ poses (fun pos =>
    known <- contains a_pos_dic pos ;;
    if known : bool then ret tt
    else register a_pos_dic pos).

Definition fit (X : list (list str)) (y : option (list (list str)))
  : SP unit :=
  for_ X fit_doc ;;;
  match y with
  | None => raise TypeError
  | Some y => for_ (set_iter (chain y)) (fun t => register a_label_dic t)
  end.

Definition _get_char_ids (word : str) : SP (list Z) :=
  comprehension (fun c =>
    unk <- getitem a_char_dic UNK ;;
    get_or a_char_dic [c] unk) word.

Definition get_char_types (word : str) : SP (list Z) :=
  comprehension (fun c => ret (get_character_type c)) word.

Definition get_bies (word : str) : SP (list Z) :=
  if (length word =? 1)%nat then
    s <- getitem a_bies_dic key_S ;;
    ret [s]
  else
    i <- getitem a_bies_dic key_I ;;
    let res := repeat i (length word) in
    b <- getitem a_bies_dic key_B ;;
    res <- call (list_setitem res 0 b) ;;
    e <- getitem a_bies_dic key_E ;;
    res <- call (list_setitem res (-1) e) ;;
    ret res.

(** [[self.a.get(k, self.a[UNK]) for _ in range(len(w))]] *)
Definition broadcast (a : attr) (k : str) (w : str) : SP (list Z) :=
  comprehension (fun _ =>
    unk <- getitem a UNK ;;
    get_or a k unk) (seq 0 (length w)).

(** The body of the loop of [transform]. *)
Definition transform_doc (doc : list str) (acc : streams) : SP streams :=
  text <- normalized doc ;;
  wp <- call (tokenize text) ;;
  let (words, poses) := wp : list str * list str in
  word_ids <- comprehension (fun w => broadcast a_word_dic w w) words ;;
  char_ids <- comprehension _get_char_ids words ;;
  bies_ids <- comprehension get_bies words ;;
  pos_ids <- comprehension (fun wp => broadcast a_pos_dic (snd wp) (fst wp))
               (combine words poses) ;;
  char_types <- comprehension get_char_types words ;;
  let word_ids := chain word_ids in
  let char_ids := chain char_ids in
  let bies_ids := chain bies_ids in
  let pos_ids := chain pos_ids in
  let char_types := chain char_types in
  let acc :=
    {| x_words := x_words acc ++ [np_int32 word_ids];
       x_chars := x_chars acc ++ [np_int32 char_ids];
       x_bies := x_bies acc ++ [np_int32 bies_ids];
       x_poses := x_poses acc ++ [np_int32 pos_ids];
       x_types := x_types acc ++ [np_int32 char_types] |} in
  assert (length char_ids =? length word_ids)%nat ;;;
  assert (length bies_ids =? length word_ids)%nat ;;;
  assert (length pos_ids =? length word_ids)%nat ;;;
  ret acc.

Fixpoint transform_loop (X : list (list str)) (acc : streams) : SP streams :=
  match X with
  | [] => ret acc
  | doc :: rest =>
      acc <- transform_doc doc acc ;;
      transform_loop rest acc
  end.

Definition transform (X : list (list str)) (y : option (list (list str)))
  : SP (streams * option (list (list Z))) :=
  inputs <- transform_loop X
              {| x_words := []; x_chars := []; x_bies := [];
                 x_poses := []; x_types := [] |} ;;
  y <- match y with
       | None => ret None
       | Some y =>
           ids <- comprehension
                    (comprehension (fun t => getitem a_label_dic t)) y ;;
           ret (Some ids)
       end ;;
  ret (inputs, y).

Definition fit_transform (X : list (list str)) (y : option (list (list str)))
  : SP (streams * option (list (list Z))) :=
  fit X y ;;;
  transform X y.

(** [id2x[c]] *)
Definition idict_getitem (d : idict) (k : Z) : SP str :=
  match idict_get d k with
  | Some v => ret v
  | None => raise KeyError
  end.

Definition inverse_transform (X docs : option (list (list Z)))
  : SP (list (list str)) :=
  match X with
  | Some X =>
      d <- read char_dic ;;
      let id2char := invert d in
      comprehension (comprehension (idict_getitem id2char)) X
  | None =>
      d <- read label_dic ;;
      let id2label := invert d in
      match docs with
      | Some docs => comprehension (comprehension (idict_getitem id2label)) docs
      | None => raise TypeError
      end
  end.

End Static.

(** ** DynamicPreprocessor *)

Definition max_length (seqs : list (list Z)) : nat :=
  fold_right (fun s m => Nat.max (length s) m) 0%nat seqs.

(** Modelled from the spec: [pad_sequences] of keras is not among the
    sources.  With [padding='post'] and no [maxlen] it appends the value 0
    to every sequence up to the length of the longest one and never
    truncates; the result is an [int32] array.  The maximum of no lengths
    at all is an error of the library. *)
Definition pad_sequences (seqs : list (list Z)) : result (list (list Z)) :=
  match seqs with
  | [] => Raise ValueError
  | _ =>
      let maxlen := max_length seqs in
      Ok (map (fun s => np_int32 s ++ repeat 0 (maxlen - length s)) seqs)
  end.

(** The vector of width [n] with a one at position [i] only. *)
Definition one_hot (n : nat) (i : nat) : list Z :=
  map (fun j => if (j =? i)%nat then 1 else 0) (seq 0 n).

(** Modelled from the spec: [to_categorical] of keras is not among the
    sources.  It expands each label ID of a row to a one-hot vector of
    width [num_classes]; an ID that is no column of the matrix is an index
    error. *)
Definition to_categorical (row : list Z) (num_classes : Z)
  : result (list (list Z)) :=
  if forallb (fun i => (0 <=? i) && (i <? num_classes)) row
  then Ok (map (fun i => one_hot (Z.to_nat num_classes) (Z.to_nat i)) row)
  else Raise IndexError.

Record tensors := {
  t_words : list (list Z);
  t_chars : list (list Z);
  t_bies : list (list Z);
  t_poses : list (list Z);
  t_types : list (list Z)
}.

Module DynamicPreprocessor.

(** The object: [__init__] stores the number of labels. *)
Record t := { n_labels : Z }.

Definition transform (X : streams) (y : option (list (list Z)))
  : M t (tensors * option (list (list (list Z)))) :=
  let (words, chars, bies, poses, types) := X in
  words <- call (pad_sequences words) ;;
  chars <- call (pad_sequences chars) ;;
  bies <- call (pad_sequences bies) ;;
  poses <- call (pad_sequences poses) ;;
  types <- call (pad_sequences types) ;;
  y <- match y with
       | None => ret None
       | Some y =>
           y <- call (pad_sequences y) ;;
           y <- comprehension (fun y_ =>
                  n <- read n_labels ;;
                  call (to_categorical y_ n)) y ;;
           ret (Some y)
       end ;;
  let sents := {| t_words := words; t_chars := chars; t_bies := bies;
                  t_poses := poses; t_types := types |} in
  ret (sents, y).

End DynamicPreprocessor.

(** ** Vocabulary of the statements *)

(** A method that leaves the object as it found it, whatever it returns. *)
Definition readonly {S A} (m : M S A) : Prop :=
  forall self, snd (m self) = self.

(** IDs [start, start+1, ...], [n] of them. *)
Definition ids_from (start n : nat) : list Z := map Z.of_nat (seq start n).

(** Keys all different, IDs [0, 1, 2, ...] in insertion order. *)
Definition contiguous (d : dict) : Prop :=
  NoDup (keys d) /\ values d = ids_from 0 (length d).

(** No two keys share an ID. *)
Definition injective (d : dict) : Prop :=
  forall k1 k2 v, dict_get d k1 = Some v -> dict_get d k2 = Some v -> k1 = k2.

(** Each string once, at the place of its first occurrence. *)
Fixpoint first_occurrences (l : list str) : list str :=
  match l with
  | [] => []
  | x :: rest => x :: remove str_eq_dec x (first_occurrences rest)
  end.

(** The strings of [l] that are no key of [d]. *)
Definition unseen (d : dict) (l : list str) : list str :=
  filter (fun k => negb (dict_mem d k)) l.

(** [d], then the keys [ks] with the next free IDs, in that order. *)
Definition extend (d : dict) (ks : list str) : dict :=
  d ++ combine ks (ids_from (length d) (length ks)).

(** [d'] is [d] grown by the strings of [l] it had not seen, each given
    the next free ID at its first occurrence in [l]. *)
Definition grown_in_order (d d' : dict) (l : list str) : Prop :=
  d' = extend d (first_occurrences (unseen d l)).

(** The characters of words, as dictionary keys. *)
Definition chars_of (ws : list str) : list str :=
  map (fun c => [c]) (concat ws).

(** The ID of a key, the unknown sentinel's ID 1 when it has none. *)
Definition id_or_unk (d : dict) (k : str) : Z :=
  match dict_get d k with
  | Some v => v
  | None => 1
  end.

(** The BIES IDs of a word: S = 4 alone, else B = 1, I = 2 ..., E = 3. *)
Definition bies_tags (w : str) : list Z :=
  match length w with
  | 1%nat => [4]
  | n => [1] ++ repeat 2 (n - 2) ++ [3]
  end.

Definition total_chars (ws : list str) : nat := length (concat ws).

(** The code of the first rule, in the order given, that the character
    satisfies, and [other] when it satisfies none. *)
Fixpoint first_match (rules : list ((char -> bool) * Z)) (other : Z)
    (ch : char) : Z :=
  match rules with
  | [] => other
  | (p, code) :: rest => if p ch then code else first_match rest other ch
  end.

(** The code points from [lo] to [hi], both included. *)
Definition code_points (lo hi : N) (ch : char) : bool :=
  ((lo <=? ch) && (ch <=? hi))%N.

(** Two dictionaries that map the same keys to the same IDs. *)
Definition same_mapping (d1 d2 : dict) : Prop :=
  forall k, dict_get d1 k = dict_get d2 k.

(** A sequence brought to length [n] by zeros on the right. *)
Definition pad_to (n : nat) (s : list Z) : list Z :=
  np_int32 s ++ repeat 0 (n - length s).

(** A tensor of [rows] rows that all have [cols] entries. *)
Definition rectangular {A} (rows cols : nat) (t : list (list A)) : Prop :=
  length t = rows /\ Forall (fun r => length r = cols) t.

(** The five sequences of every document have the same length. *)
Definition aligned (X : streams) : Prop :=
  map (@length Z) (x_chars X) = map (@length Z) (x_words X) /\
  map (@length Z) (x_bies X) = map (@length Z) (x_words X) /\
  map (@length Z) (x_poses X) = map (@length Z) (x_words X) /\
  map (@length Z) (x_types X) = map (@length Z) (x_words X).

(** What the loop [for k in l: if k in d: continue; d[k] = len(d)] makes
    of a dictionary [d]. *)
Definition add_key (d : dict) (k : str) : dict :=
  if dict_mem d k then d else dict_set d k (dict_len d).

Definition add_keys (d : dict) (l : list str) : dict := fold_left add_key l d.

(** One round of the loop over the words in [fit], on the word and the
    character dictionary. *)
Definition word_step (wc : dict * dict) (w : str) : dict * dict :=
  if dict_mem (fst wc) w then wc
  else (dict_set (fst wc) w (dict_len (fst wc)),
        add_keys (snd wc) (map (fun c => [c]) w)).

(** What the loop [for t in l: d[t] = len(d)] makes of a dictionary. *)
Definition set_labels (d : dict) (l : list str) : dict :=
  fold_left (fun d t => dict_set d t (dict_len d)) l d.

Section Vocabulary.
Context {RT : PyRuntime}.

(** The text of a document after the configured normalizations. *)
Definition norm_text (lc nn : bool) (doc : list str) : str :=
  let text := join [] doc in
  let text := if lc then lower text else text in
  if nn then normalize_number text else text.

(** The words and POS tags of a document, none when [tokenize] raises. *)
Definition tokens_of (lc nn : bool) (doc : list str) : list str * list str :=
  match tokenize (norm_text lc nn doc) with
  | Ok wp => wp
  | Raise _ => ([], [])
  end.

Definition words_of (self : StaticPreprocessor) (doc : list str) : list str :=
  fst (tokens_of (_lowercase self) (_num_norm self) doc).

Definition poses_of (self : StaticPreprocessor) (doc : list str) : list str :=
  snd (tokens_of (_lowercase self) (_num_norm self) doc).

(** [tokenize] returns on the document. *)
Definition tokenizes (self : StaticPreprocessor) (doc : list str) : bool :=
  match tokenize (norm_text (_lowercase self) (_num_norm self) doc) with
  | Ok _ => true
  | Raise _ => false
  end.

(** [tokenize] returns on the document, and no word is empty. *)
Definition well_tokenized (self : StaticPreprocessor) (doc : list str)
  : bool :=
  tokenizes self doc
  && forallb (fun w => negb (length w =? 0)%nat) (words_of self doc).

(** All words, and all POS tags, of a corpus in reading order. *)
Definition corpus_words (self : StaticPreprocessor) (X : list (list str))
  : list str :=
  concat (map (words_of self) X).

Definition corpus_poses (self : StaticPreprocessor) (X : list (list str))
  : list str :=
  concat (map (poses_of self) X).

(** The object after the loop of [fit] over the documents [X]. *)
Definition learn (self : StaticPreprocessor) (X : list (list str))
  : StaticPreprocessor :=
  let ws := corpus_words self X in
  let wd := add_keys (word_dic self) ws in
  let cd := add_keys (char_dic self)
              (chars_of (first_occurrences (unseen (word_dic self) ws))) in
  let pd := add_keys (pos_dic self) (corpus_poses self X) in
  setattr a_pos_dic pd (setattr a_char_dic cd (setattr a_word_dic wd self)).

(** The object after [fit]. *)
Definition learn_labels (self : StaticPreprocessor) (X : list (list str))
    (y : list (list str)) : StaticPreprocessor :=
  let self' := learn self X in
  setattr a_label_dic
    (set_labels (label_dic self') (set_iter (chain y))) self'.

(** Every label has an ID. *)
Definition labels_known (self : StaticPreprocessor) (y : list (list str))
  : bool :=
  forallb (forallb (dict_mem (label_dic self))) y.

(** The five arrays of one document. *)
Definition word_stream (self : StaticPreprocessor) (doc : list str) : list Z :=
  concat (map (fun w => repeat (int32 (id_or_unk (word_dic self) w))
                               (length w))
              (words_of self doc)).

Definition char_stream (self : StaticPreprocessor) (doc : list str) : list Z :=
  map (fun c => int32 (id_or_unk (char_dic self) [c]))
      (concat (words_of self doc)).

Definition bies_stream (self : StaticPreprocessor) (doc : list str) : list Z :=
  concat (map bies_tags (words_of self doc)).

Definition pos_stream (self : StaticPreprocessor) (doc : list str) : list Z :=
  concat (map (fun wp => repeat (int32 (id_or_unk (pos_dic self) (snd wp)))
                                (length (fst wp)))
              (combine (words_of self doc) (poses_of self doc))).

Definition type_stream (self : StaticPreprocessor) (doc : list str) : list Z :=
  map get_character_type (concat (words_of self doc)).

(** The five lists of arrays of a corpus. *)
Definition streams_of (self : StaticPreprocessor) (X : list (list str))
  : streams :=
  {| x_words := map (word_stream self) X;
     x_chars := map (char_stream self) X;
     x_bies := map (bies_stream self) X;
     x_poses := map (pos_stream self) X;
     x_types := map (type_stream self) X |}.

(** The IDs of labels that all have one. *)
Definition label_ids (self : StaticPreprocessor) (y : list (list str))
  : list (list Z) :=
  map (map (fun t => match dict_get (label_dic self) t with
                     | Some v => v
                     | None => 0
                     end)) y.

(** Labels are absent, or every label has an ID. *)
Definition labels_ok (self : StaticPreprocessor)
    (y : option (list (list str))) : bool :=
  match y with
  | None => true
  | Some y => labels_known self y
  end.

(** Decoding the character arrays of [transform] gives back the
    characters of the normalized tokenized documents. *)
Definition round_trips (self : StaticPreprocessor) (X : list (list str))
  : Prop :=
  exists out,
    transform X None self = (Ok (out, None), self) /\
    inverse_transform (Some (x_chars out)) None self
    = (Ok (map (fun doc => chars_of (words_of self doc)) X), self).

(** What a preprocessor needs for [transform]: the unknown sentinel in the
    three open vocabularies and the BIES table. *)
Definition ready (self : StaticPreprocessor) : Prop :=
  dict_get (word_dic self) UNK = Some 1 /\
  dict_get (char_dic self) UNK = Some 1 /\
  dict_get (pos_dic self) UNK = Some 1 /\
  bies_dic self = [(key_B, 1); (key_I, 2); (key_E, 3); (key_S, 4)].

(** The objects [fit] has returned, once or several times. *)
Inductive fitted : StaticPreprocessor -> Prop :=
| fitted_first lc nn vi X y self :
    fit X y (StaticPreprocessor_init lc nn vi) = (Ok tt, self) ->
    fitted self
| fitted_again X y self self' :
    fitted self ->
    fit X y self = (Ok tt, self') ->
    fitted self'.

(** The objects one call of [fit] on a new preprocessor has returned. *)
Definition fitted_once (self : StaticPreprocessor) : Prop :=
  exists lc nn vi X y,
    fit X y (StaticPreprocessor_init lc nn vi) = (Ok tt, self).

End Vocabulary.

(** ** A small runtime to compute with

    ASCII only: blanks, digits and letters as in Python; the tagger makes
    every blank-separated run of characters a word and gives it the
    feature string [n,g,*,*]; a set is iterated backwards, each element
    at the place of its last occurrence. *)

Definition ascii_isspace (c : char) : bool :=
  ((c =? 0x20) || (0x09 <=? c) && (c <=? 0x0D) || (0x1C <=? c) && (c <=? 0x1F))%N.

Definition ascii_isdigit (c : char) : bool := ((0x30 <=? c) && (c <=? 0x39))%N.
Definition ascii_islower (c : char) : bool := ((0x61 <=? c) && (c <=? 0x7A))%N.
Definition ascii_isupper (c : char) : bool := ((0x41 <=? c) && (c <=? 0x5A))%N.

Definition ascii_lower (s : str) : str :=
  map (fun c => if ascii_isupper c then (c + 0x20)%N else c) s.

Definition blank_tagger (text : str) : str :=
  concat (map (fun w => match w with
                        | [] => []
                        | _ => w ++ of_string (String "009" "n,g,*,*")
                                 ++ [0x0A%N]
                        end)
              (split 0x20%N text))
  ++ of_string "EOS" ++ [0x0A%N].

Definition last_added (l : list str) : list str := rev (nodup str_eq_dec l).

Definition ascii_runtime : PyRuntime.
Proof.
  refine {| isspace := ascii_isspace; isdigit := ascii_isdigit;
            islower := ascii_islower; isupper := ascii_isupper;
            lower := ascii_lower; mecab_parse := blank_tagger;
            set_iter := last_added |}.
  - intro l. unfold last_added. apply NoDup_rev, NoDup_nodup.
  - intros l x. unfold last_added. rewrite <- in_rev. apply nodup_In.
Defined.

(** The same runtime with a tagger that returns the text as one line
    without a tab, before the line [EOS]. *)
Definition echo_tagger (text : str) : str :=
  text ++ [0x0A%N] ++ of_string "EOS" ++ [0x0A%N].

Definition echo_runtime : PyRuntime :=
  {| isspace := ascii_isspace; isdigit := ascii_isdigit;
     islower := ascii_islower; isupper := ascii_isupper;
     lower := ascii_lower; mecab_parse := echo_tagger;
     set_iter := last_added;
     set_iter_NoDup := @set_iter_NoDup ascii_runtime;
     set_iter_In := @set_iter_In ascii_runtime |}.

(** The same runtime with a tagger that, like [blank_tagger], makes every
    run of characters between blanks and line feeds a word, and that
    prints a carriage return as a word of its own, with the feature
    string [sym,g,*,*]: the line of that word begins with the carriage
    return itself. *)
Definition flush_word (cur : str) : str :=
  match cur with
  | [] => []
  | _ => rev cur ++ of_string (String "009" "n,g,*,*") ++ [0x0A%N]
  end.

Fixpoint cr_tagger_from (cur : str) (s : str) : str :=
  match s with
  | [] => flush_word cur ++ of_string "EOS" ++ [0x0A%N]
  | c :: r =>
      if (N.eqb c 0x20 || N.eqb c 0x0A)%N%bool
      then flush_word cur ++ cr_tagger_from [] r
      else if N.eqb c 0x0D%N
      then flush_word cur
           ++ [0x0D%N] ++ of_string (String "009" "sym,g,*,*") ++ [0x0A%N]
           ++ cr_tagger_from [] r
      else cr_tagger_from (c :: cur) r
  end.

Definition cr_tagger (text : str) : str := cr_tagger_from [] text.

Definition cr_runtime : PyRuntime :=
  {| isspace := ascii_isspace; isdigit := ascii_isdigit;
     islower := ascii_islower; isupper := ascii_isupper;
     lower := ascii_lower; mecab_parse := cr_tagger;
     set_iter := last_added;
     set_iter_NoDup := @set_iter_NoDup ascii_runtime;
     set_iter_In := @set_iter_In ascii_runtime |}.

(** The document "x", carriage return, line feed, "y". *)
Definition cr_doc : list str := [[0x78; 0x0D; 0x0A; 0x79]%N].

(** A corpus of one document of two lines, its labels, the preprocessor
    fitted on them, and a batch of three documents of 3, 5 and 2
    characters. *)
Definition demo_corpus : list (list str) :=
  [[of_string "Ab c3 Ab"; of_string " xyz"]].

Definition demo_labels : list (list str) :=
  [[of_string "O"; of_string "B"]].

Definition demo : StaticPreprocessor :=
  snd (@fit ascii_runtime demo_corpus (Some demo_labels)
         (StaticPreprocessor_init true true None)).

Definition demo_batch : streams :=
  {| x_words := [[2; 2; 2]; [3; 3; 4; 4; 4]; [5; 5]];
     x_chars := [[2; 3; 4]; [5; 6; 7; 8; 9]; [2; 3]];
     x_bies := [[1; 2; 3]; [1; 3; 1; 2; 3]; [1; 3]];
     x_poses := [[2; 2; 2]; [2; 2; 3; 3; 3]; [2; 2]];
     x_types := [[3; 3; 3]; [3; 3; 2; 2; 2]; [7; 7]] |}.

(** The preprocessor fitted on [demo_corpus] with that tagger. *)
Definition cr_demo : StaticPreprocessor :=
  snd (@fit cr_runtime demo_corpus (Some demo_labels)
         (StaticPreprocessor_init true true None)).

(** A preprocessor fitted on no document at all. *)
Definition bare : StaticPreprocessor :=
  snd (@fit ascii_runtime [] (Some demo_labels)
         (StaticPreprocessor_init true true None)).

(** ** Vocabulary of the further properties *)

(** The line holds a tab. *)
Definition has_tab (chunk : str) : bool :=
  existsb (fun c => N.eqb c 0x09%N) chunk.

(** A line [tokenize] can take apart: empty, or with a tab. *)
Definition chunk_ok (chunk : str) : bool :=
  match chunk with
  | [] => true
  | _ => has_tab chunk
  end.

Definition nonempty (chunk : str) : bool :=
  match chunk with
  | [] => false
  | _ => true
  end.

(** What comes before the first tab of a line. *)
Definition surface_of (chunk : str) : str := hd [] (split 0x09%N chunk).

(** The first three comma-separated fields of what follows the first tab,
    joined by hyphens. *)
Definition pos_of (chunk : str) : str :=
  join [0x2D%N] (firstn 3 (split 0x2C%N (nth 1 (split 0x09%N chunk) []))).

(** The longest prefix of [l] whose elements all satisfy [p]. *)
Fixpoint take_while {A} (p : A -> bool) (l : list A) : list A :=
  match l with
  | [] => []
  | x :: rest => if p x then x :: take_while p rest else []
  end.

(** The ID is one of [0 .. len(d) - 1]. *)
Definition in_range (d : dict) (i : Z) : bool :=
  (0 <=? i) && (i <? dict_len d).

Section MoreVocabulary.
Context {RT : PyRuntime}.

(** The lines of the tagger's output that [tokenize] loops over. *)
Definition chunks_of (text : str) : list str :=
  removelast (splitlines (mecab_parse (rstrip text))).

End MoreVocabulary.

(** * Properties *)

(** ** Strings and dictionaries *)

Lemma str_eqb_eq (a b : str) : str_eqb a b = true <-> a = b.
Proof.
  unfold str_eqb. destruct (list_eq_dec N.eq_dec a b); split; congruence.
Qed.

Lemma str_eqb_neq (a b : str) : str_eqb a b = false <-> a <> b.
Proof.
  unfold str_eqb. destruct (list_eq_dec N.eq_dec a b); split; congruence.
Qed.

Lemma str_eqb_refl (a : str) : str_eqb a a = true.
Proof. now apply str_eqb_eq. Qed.

Ltac str_cases a b :=
  let E := fresh "E" in
  destruct (str_eqb a b) eqn:E;
  [apply str_eqb_eq in E; try subst | apply str_eqb_neq in E].

Lemma dict_get_In (d : dict) (k : str) (v : Z) :
  dict_get d k = Some v -> In (k, v) d.
Proof.
  induction d as [|[k' v'] d IH]; simpl; [discriminate|].
  str_cases k' k.
  - intros [= <-]. now left.
  - intro H. right. auto.
Qed.

Lemma dict_get_None (d : dict) (k : str) :
  dict_get d k = None <-> ~ In k (keys d).
Proof.
  induction d as [|[k' v'] d IH]; simpl.
  - tauto.
  - str_cases k' k.
    + split; [discriminate | intros H; exfalso; apply H; now left].
    + rewrite IH. tauto.
Qed.

Lemma dict_mem_false (d : dict) (k : str) :
  dict_mem d k = false <-> ~ In k (keys d).
Proof.
  unfold dict_mem. rewrite <- dict_get_None.
  destruct (dict_get d k); split; congruence.
Qed.

Lemma dict_mem_true (d : dict) (k : str) :
  dict_mem d k = true <-> In k (keys d).
Proof.
  destruct (dict_mem d k) eqn:E.
  - split; [intros _ | reflexivity].
    destruct (in_dec str_eq_dec k (keys d)) as [H|H]; [exact H|].
    apply dict_mem_false in H. congruence.
  - apply dict_mem_false in E. split; [discriminate | contradiction].
Qed.

Lemma dict_get_app_l (d e : dict) (k : str) :
  dict_mem d k = true -> dict_get (d ++ e) k = dict_get d k.
Proof.
  unfold dict_mem.
  induction d as [|[k' v'] d IH]; simpl; [discriminate|].
  destruct (str_eqb k' k); auto.
Qed.

Lemma dict_get_app_r (d e : dict) (k : str) :
  dict_mem d k = false -> dict_get (d ++ e) k = dict_get e k.
Proof.
  unfold dict_mem.
  induction d as [|[k' v'] d IH]; simpl; [reflexivity|].
  destruct (str_eqb k' k); [discriminate | auto].
Qed.

(** Storing under a new key appends the entry. *)
Lemma dict_set_new (d : dict) (k : str) (v : Z) :
  dict_mem d k = false -> dict_set d k v = d ++ [(k, v)].
Proof.
  unfold dict_mem.
  induction d as [|[k' v'] d IH]; simpl; [reflexivity|].
  destruct (str_eqb k' k); [discriminate|].
  intro H. now rewrite IH.
Qed.

Lemma keys_app (d e : dict) : keys (d ++ e) = keys d ++ keys e.
Proof. apply map_app. Qed.

Lemma values_app (d e : dict) : values (d ++ e) = values d ++ values e.
Proof. apply map_app. Qed.

Lemma ids_from_length (a n : nat) : length (ids_from a n) = n.
Proof. unfold ids_from. now rewrite length_map, length_seq. Qed.

Lemma ids_from_app (a n m : nat) :
  ids_from a (n + m) = ids_from a n ++ ids_from (a + n) m.
Proof. unfold ids_from. now rewrite seq_app, map_app. Qed.

Lemma ids_from_S (a n : nat) :
  ids_from a (S n) = Z.of_nat a :: ids_from (S a) n.
Proof. reflexivity. Qed.

Lemma In_ids_from (a n : nat) (z : Z) :
  In z (ids_from a n) <-> Z.of_nat a <= z < Z.of_nat (a + n).
Proof.
  unfold ids_from. rewrite in_map_iff. split.
  - intros (i & <- & Hi). apply in_seq in Hi. lia.
  - intros H. exists (Z.to_nat z). split; [lia|]. apply in_seq. lia.
Qed.

Lemma NoDup_ids_from (a n : nat) : NoDup (ids_from a n).
Proof.
  revert a. induction n as [|n IH]; intro a; [constructor|].
  rewrite ids_from_S. constructor; [|apply IH].
  rewrite In_ids_from. lia.
Qed.

Lemma keys_combine (ks : list str) (vs : list Z) :
  length ks = length vs -> keys (combine ks vs) = ks.
Proof.
  revert vs. induction ks as [|k ks IH]; intros [|v vs]; simpl;
    try discriminate; try reflexivity.
  intros [= H]. unfold keys in IH. now rewrite IH.
Qed.

Lemma values_combine (ks : list str) (vs : list Z) :
  length ks = length vs -> values (combine ks vs) = vs.
Proof.
  revert vs. induction ks as [|k ks IH]; intros [|v vs]; simpl;
    try discriminate; try reflexivity.
  intros [= H]. unfold values in IH. now rewrite IH.
Qed.

Lemma keys_extend (d : dict) (ks : list str) :
  keys (extend d ks) = keys d ++ ks.
Proof.
  unfold extend. rewrite keys_app, keys_combine; [reflexivity|].
  now rewrite ids_from_length.
Qed.

Lemma length_extend (d : dict) (ks : list str) :
  length (extend d ks) = (length d + length ks)%nat.
Proof.
  unfold extend. rewrite length_app, length_combine, ids_from_length.
  lia.
Qed.

Lemma extend_nil (d : dict) : extend d [] = d.
Proof. unfold extend. simpl. apply app_nil_r. Qed.

Lemma extend_cons (d : dict) (k : str) (ks : list str) :
  extend d (k :: ks) = extend (d ++ [(k, dict_len d)]) ks.
Proof.
  unfold extend, dict_len. simpl. rewrite <- app_assoc. simpl.
  rewrite length_app. simpl. now rewrite Nat.add_1_r.
Qed.

(** ** First occurrences *)

Lemma NoDup_remove_str (x : str) (l : list str) :
  NoDup l -> NoDup (remove str_eq_dec x l).
Proof.
  induction 1 as [|y l Hy Hl IH]; simpl; [constructor|].
  destruct (str_eq_dec x y); [exact IH|].
  constructor; [|exact IH].
  intro H. apply in_remove in H. tauto.
Qed.

Lemma first_occurrences_In (l : list str) (x : str) :
  In x (first_occurrences l) <-> In x l.
Proof.
  induction l as [|y l IH]; simpl; [tauto|].
  split.
  - intros [->|H]; [now left|]. apply in_remove in H. right. tauto.
  - intros [->|H]; [now left|].
    destruct (str_eq_dec x y) as [->|Hxy]; [now left|].
    right. apply in_in_remove; [exact Hxy | tauto].
Qed.

Lemma first_occurrences_NoDup (l : list str) : NoDup (first_occurrences l).
Proof.
  induction l as [|y l IH]; simpl; constructor.
  - apply remove_In.
  - now apply NoDup_remove_str.
Qed.

Lemma first_occurrences_remove (x : str) (l : list str) :
  first_occurrences (remove str_eq_dec x l)
  = remove str_eq_dec x (first_occurrences l).
Proof.
  induction l as [|y l IH]; simpl; [reflexivity|].
  destruct (str_eq_dec x y) as [->|Hxy].
  - rewrite IH. now rewrite remove_remove_eq.
  - simpl. rewrite IH. now rewrite remove_remove_comm.
Qed.

(** A list without repetition is its own list of first occurrences. *)
Lemma first_occurrences_id (l : list str) :
  NoDup l -> first_occurrences l = l.
Proof.
  induction 1 as [|y l Hy Hl IH]; simpl; [reflexivity|].
  rewrite IH. now rewrite notin_remove.
Qed.

Lemma unseen_In (d : dict) (l : list str) (x : str) :
  In x (unseen d l) <-> In x l /\ ~ In x (keys d).
Proof.
  unfold unseen. rewrite filter_In, negb_true_iff, dict_mem_false. tauto.
Qed.

Lemma dict_mem_snoc (d : dict) (x k : str) (v : Z) :
  dict_mem (d ++ [(x, v)]) k = dict_mem d k || str_eqb x k.
Proof.
  unfold dict_mem.
  induction d as [|[k' v'] d IH]; simpl.
  - now destruct (str_eqb x k).
  - destruct (str_eqb k' k); [reflexivity | exact IH].
Qed.

Lemma unseen_snoc (d : dict) (x : str) (v : Z) (l : list str) :
  unseen (d ++ [(x, v)]) l = remove str_eq_dec x (unseen d l).
Proof.
  unfold unseen.
  induction l as [|k l IH]; simpl; [reflexivity|].
  rewrite dict_mem_snoc.
  destruct (dict_mem d k); simpl; [exact IH|].
  destruct (str_eq_dec x k) as [->|Hxk].
  - now rewrite str_eqb_refl.
  - apply str_eqb_neq in Hxk. rewrite Hxk. simpl. now rewrite IH.
Qed.

Lemma add_keys_app (d : dict) (l1 l2 : list str) :
  add_keys d (l1 ++ l2) = add_keys (add_keys d l1) l2.
Proof. apply fold_left_app. Qed.

(** The keys the loop adds are the unseen strings, each once, in the order
    of their first occurrences, with the next free IDs. *)
Lemma add_keys_closed (l : list str) (d : dict) :
  add_keys d l = extend d (first_occurrences (unseen d l)).
Proof.
  revert d. induction l as [|x l IH]; intro d.
  - simpl. now rewrite extend_nil.
  - change (add_keys d (x :: l)) with (add_keys (add_key d x) l).
    unfold add_key, unseen. simpl.
    destruct (dict_mem d x) eqn:E; simpl.
    + apply IH.
    + rewrite dict_set_new by exact E.
      rewrite IH, extend_cons, unseen_snoc, first_occurrences_remove.
      reflexivity.
Qed.

Lemma word_step_fold (ws : list str) (wd cd : dict) :
  fold_left word_step ws (wd, cd)
  = (add_keys wd ws,
     add_keys cd (chars_of (first_occurrences (unseen wd ws)))).
Proof.
  revert wd cd. induction ws as [|w ws IH]; intros wd cd.
  - reflexivity.
  - simpl fold_left. unfold word_step at 2. simpl fst. simpl snd.
    change (add_keys wd (w :: ws)) with (add_keys (add_key wd w) ws).
    unfold add_key, unseen. simpl filter.
    destruct (dict_mem wd w) eqn:E; simpl negb; cbv iota.
    + apply IH.
    + rewrite IH. f_equal.
      rewrite dict_set_new by exact E.
      rewrite unseen_snoc, first_occurrences_remove.
      simpl first_occurrences. unfold chars_of. simpl concat.
      now rewrite map_app, add_keys_app.
Qed.

(** ** Dictionaries that stay well numbered *)

Lemma contiguous_extend (d : dict) (ks : list str) :
  contiguous d -> NoDup ks -> (forall k, In k ks -> ~ In k (keys d)) ->
  contiguous (extend d ks).
Proof.
  intros [Hk Hv] Hks Hdis. split.
  - rewrite keys_extend. apply NoDup_app; auto.
    intros k H1 H2. exact (Hdis k H2 H1).
  - rewrite length_extend, ids_from_app. simpl.
    unfold extend. rewrite values_app, Hv. f_equal.
    apply values_combine. now rewrite ids_from_length.
Qed.

Lemma contiguous_add_keys (d : dict) (l : list str) :
  contiguous d -> contiguous (add_keys d l).
Proof.
  intro H. rewrite add_keys_closed. apply contiguous_extend; auto.
  - apply first_occurrences_NoDup.
  - intros k Hk. apply first_occurrences_In, unseen_In in Hk. tauto.
Qed.

Lemma contiguous_values_NoDup (d : dict) : contiguous d -> NoDup (values d).
Proof. intros [_ ->]. apply NoDup_ids_from. Qed.

Lemma In_values_NoDup_eq (d : dict) (k1 k2 : str) (v : Z) :
  NoDup (values d) -> In (k1, v) d -> In (k2, v) d -> k1 = k2.
Proof.
  induction d as [|[k' v'] d IH]; simpl; [tauto|].
  intros Hnd H1 H2. inversion Hnd as [|? ? Hnot Hnd']; subst.
  assert (Hv : forall k, In (k, v') d -> False).
  { intros k Hk. apply Hnot. unfold values.
    change v' with (snd (k, v')). now apply in_map. }
  destruct H1 as [E1|H1], H2 as [E2|H2].
  - congruence.
  - inversion E1; subst. exfalso; eauto.
  - inversion E2; subst. exfalso; eauto.
  - auto.
Qed.

Lemma contiguous_injective (d : dict) : contiguous d -> injective d.
Proof.
  intros H k1 k2 v H1 H2.
  apply (@In_values_NoDup_eq d k1 k2 v).
  - now apply contiguous_values_NoDup.
  - now apply dict_get_In.
  - now apply dict_get_In.
Qed.

Lemma dict_get_add_keys (d : dict) (l : list str) (k : str) :
  dict_mem d k = true -> dict_get (add_keys d l) k = dict_get d k.
Proof.
  intro H. rewrite add_keys_closed. unfold extend.
  now apply dict_get_app_l.
Qed.

(** ** Running methods *)

Lemma setattr_getattr (a : attr) (self : StaticPreprocessor) :
  setattr a (getattr a self) self = self.
Proof. now destruct self, a. Qed.

Lemma getattr_setattr (a b : attr) (d : dict) (self : StaticPreprocessor) :
  getattr a (setattr b d self) = if attr_eqb a b then d else getattr a self.
Proof. now destruct self, a, b. Qed.

Lemma setattr_setattr (a : attr) (d d' : dict) (self : StaticPreprocessor) :
  setattr a d (setattr a d' self) = setattr a d self.
Proof. now destruct self, a. Qed.

Lemma lowercase_setattr (a : attr) (d : dict) (self : StaticPreprocessor) :
  _lowercase (setattr a d self) = _lowercase self.
Proof. now destruct self, a. Qed.

Lemma num_norm_setattr (a : attr) (d : dict) (self : StaticPreprocessor) :
  _num_norm (setattr a d self) = _num_norm self.
Proof. now destruct self, a. Qed.

Lemma vocab_init_setattr (a : attr) (d : dict) (self : StaticPreprocessor) :
  _vocab_init (setattr a d self) = _vocab_init self.
Proof. now destruct self, a. Qed.

Lemma bind_ok {S A B} (m : M S A) (f : A -> M S B) (s s' : S) (a : A) :
  m s = (Ok a, s') -> bind m f s = f a s'.
Proof. unfold bind. now intros ->. Qed.

Arguments bind_ok {S A B} m f {s s' a} _.

Lemma bind_raise {S A B} (m : M S A) (f : A -> M S B) (s s' : S) (e : exn) :
  m s = (Raise e, s') -> bind m f s = (Raise e, s').
Proof. unfold bind. now intros ->. Qed.

Arguments bind_raise {S A B} m f {s s' e} _.

(** A comprehension over a function that returns without touching the
    object is a [map]. *)
Lemma comprehension_map {S A B} (f : A -> M S B) (g : A -> B) (l : list A)
    (s : S) :
  (forall x, In x l -> f x s = (Ok (g x), s)) ->
  comprehension f l s = (Ok (map g l), s).
Proof.
  induction l as [|x l IH]; intro H; [reflexivity|].
  simpl. rewrite (bind_ok _ _ (H x (or_introl eq_refl))).
  rewrite (bind_ok _ (fun ys => ret (g x :: ys))
             (IH (fun z Hz => H z (or_intror Hz)))).
  reflexivity.
Qed.

(** The same over the image of a list. *)
Lemma comprehension_map_map {S A B C} (f : B -> M S C) (h : A -> B)
    (g : A -> C) (l : list A) (s : S) :
  (forall x, In x l -> f (h x) s = (Ok (g x), s)) ->
  comprehension f (map h l) s = (Ok (map g l), s).
Proof.
  induction l as [|x l IH]; intro H; [reflexivity|].
  simpl. rewrite (bind_ok _ _ (H x (or_introl eq_refl))).
  rewrite (bind_ok _ (fun ys => ret (g x :: ys))
             (IH (fun z Hz => H z (or_intror Hz)))).
  reflexivity.
Qed.

(** A comprehension raises what its first failing element raises. *)
Lemma comprehension_raise {S A B} (f : A -> M S B) (g : A -> B) (e : exn)
    (l1 l2 : list A) (x : A) (s : S) :
  (forall z, In z l1 -> f z s = (Ok (g z), s)) ->
  f x s = (Raise e, s) ->
  comprehension f (l1 ++ x :: l2) s = (Raise e, s).
Proof.
  induction l1 as [|z l1 IH]; intros H Hx; simpl.
  - now rewrite (bind_raise _ _ Hx).
  - rewrite (bind_ok _ _ (H z (or_introl eq_refl))).
    now rewrite (bind_raise _ _ (IH (fun w Hw => H w (or_intror Hw)) Hx)).
Qed.

Section Running.
Context {RT : PyRuntime}.

Lemma register_if_new_run (a : attr) (k : str) (self : StaticPreprocessor) :
  (known <- contains a k ;;
   if known : bool then ret tt else register a k) self
  = (Ok tt, setattr a (add_key (getattr a self) k) self).
Proof.
  unfold bind, contains, read, register, len_of, setitem, add_key, bind, ret.
  destruct (dict_mem (getattr a self) k); [|reflexivity].
  now rewrite setattr_getattr.
Qed.

Lemma register_loop_run {A} (a : attr) (f : A -> str) (l : list A)
    (self : StaticPreprocessor) :
  for_ l (fun x =>
    known <- contains a (f x) ;;
    if known : bool then ret tt else register a (f x)) self
  = (Ok tt, setattr a (add_keys (getattr a self) (map f l)) self).
Proof.
  revert self. induction l as [|x l IH]; intro self; simpl.
  - unfold ret. now rewrite setattr_getattr.
  - rewrite (bind_ok _ _ (register_if_new_run a (f x) self)).
    rewrite IH, getattr_setattr, setattr_setattr.
    now destruct a.
Qed.

Lemma word_loop_run (ws : list str) (self : StaticPreprocessor) :
  for_ ws (fun w =>
    known <- contains a_word_dic w ;;
    if known : bool then ret tt
    else
      register a_word_dic w ;;;
      for_ w (fun c =>
        known <- contains a_char_dic [c] ;;
        if known : bool then ret tt
        else register a_char_dic [c])) self
  = (Ok tt,
     let wc := fold_left word_step ws (word_dic self, char_dic self) in
     setattr a_char_dic (snd wc) (setattr a_word_dic (fst wc) self)).
Proof.
  revert self. induction ws as [|w ws IH]; intro self.
  - simpl. unfold ret. now destruct self.
  - simpl for_. simpl fold_left.
    match goal with
    | |- bind ?m ?k self = _ =>
        assert (Hm : m self =
          (Ok tt,
           let wc := word_step (word_dic self, char_dic self) w in
           setattr a_char_dic (snd wc) (setattr a_word_dic (fst wc) self)))
    end.
    { unfold word_step. simpl fst. simpl snd.
      unfold bind at 1. unfold contains, read.
      change (getattr a_word_dic self) with (word_dic self).
      destruct (dict_mem (word_dic self) w).
      - unfold ret. now destruct self.
      - unfold register at 1. unfold len_of, setitem, read.
        unfold bind at 1 2.
        rewrite (register_loop_run a_char_dic (fun c : char => [c])).
        now destruct self. }
    rewrite (bind_ok _ _ Hm). rewrite IH.
    f_equal. destruct self; simpl.
    destruct (word_step (word_dic0, char_dic0) w) as [wd cd]. simpl.
    now destruct (fold_left word_step ws (wd, cd)).
Qed.

Lemma normalized_run (doc : list str) (self : StaticPreprocessor) :
  normalized doc self
  = (Ok (norm_text (_lowercase self) (_num_norm self) doc), self).
Proof. reflexivity. Qed.

Lemma words_of_setattr (a : attr) (d : dict) (self : StaticPreprocessor) :
  words_of (setattr a d self) = words_of self.
Proof.
  unfold words_of. now rewrite lowercase_setattr, num_norm_setattr.
Qed.

Lemma poses_of_setattr (a : attr) (d : dict) (self : StaticPreprocessor) :
  poses_of (setattr a d self) = poses_of self.
Proof.
  unfold poses_of. now rewrite lowercase_setattr, num_norm_setattr.
Qed.

Lemma tokenizes_setattr (a : attr) (d : dict) (self : StaticPreprocessor) :
  tokenizes (setattr a d self) = tokenizes self.
Proof.
  unfold tokenizes. now rewrite lowercase_setattr, num_norm_setattr.
Qed.

Lemma fit_doc_run (doc : list str) (self : StaticPreprocessor) :
  tokenizes self doc = true -> fit_doc doc self = (Ok tt, learn self [doc]).
Proof.
  unfold tokenizes, fit_doc, learn, corpus_words, corpus_poses,
    words_of, poses_of, tokens_of.
  rewrite (bind_ok _ _ (normalized_run doc self)).
  destruct (tokenize (norm_text (_lowercase self) (_num_norm self) doc))
    as [[ws ps]|e] eqn:E; [intros _ | discriminate].
  unfold call at 1. unfold bind at 1.
  rewrite (bind_ok _ _ (word_loop_run ws self)).
  rewrite (register_loop_run a_pos_dic (fun pos => pos)).
  rewrite map_id. simpl. rewrite !app_nil_r.
  rewrite word_step_fold. simpl. rewrite E. now destruct self.
Qed.

Lemma fit_doc_raise (doc : list str) (self : StaticPreprocessor) :
  tokenizes self doc = false -> exists e, fit_doc doc self = (Raise e, self).
Proof.
  unfold tokenizes, fit_doc.
  rewrite (bind_ok _ _ (normalized_run doc self)).
  destruct (tokenize (norm_text (_lowercase self) (_num_norm self) doc))
    as [wp|e] eqn:E; [discriminate | intros _].
  exists e. reflexivity.
Qed.

End Running.

(** ** What [fit] computes *)

Section Fit.
Context {RT : PyRuntime}.

Lemma words_of_flags (s s' : StaticPreprocessor) :
  _lowercase s = _lowercase s' -> _num_norm s = _num_norm s' ->
  words_of s = words_of s'.
Proof. unfold words_of. now intros -> ->. Qed.

Lemma poses_of_flags (s s' : StaticPreprocessor) :
  _lowercase s = _lowercase s' -> _num_norm s = _num_norm s' ->
  poses_of s = poses_of s'.
Proof. unfold poses_of. now intros -> ->. Qed.

Lemma tokenizes_flags (s s' : StaticPreprocessor) :
  _lowercase s = _lowercase s' -> _num_norm s = _num_norm s' ->
  tokenizes s = tokenizes s'.
Proof. unfold tokenizes. now intros -> ->. Qed.

Lemma well_tokenized_flags (s s' : StaticPreprocessor) :
  _lowercase s = _lowercase s' -> _num_norm s = _num_norm s' ->
  well_tokenized s = well_tokenized s'.
Proof.
  intros H1 H2. unfold well_tokenized.
  now rewrite (tokenizes_flags _ _ H1 H2), (words_of_flags _ _ H1 H2).
Qed.

Lemma lowercase_learn (s : StaticPreprocessor) (X : list (list str)) :
  _lowercase (learn s X) = _lowercase s.
Proof. unfold learn. now rewrite !lowercase_setattr. Qed.

Lemma num_norm_learn (s : StaticPreprocessor) (X : list (list str)) :
  _num_norm (learn s X) = _num_norm s.
Proof. unfold learn. now rewrite !num_norm_setattr. Qed.

Lemma word_dic_learn (s : StaticPreprocessor) (X : list (list str)) :
  word_dic (learn s X) = add_keys (word_dic s) (corpus_words s X).
Proof. unfold learn. now destruct s. Qed.

Lemma char_dic_learn (s : StaticPreprocessor) (X : list (list str)) :
  char_dic (learn s X)
  = add_keys (char_dic s)
      (chars_of (first_occurrences (unseen (word_dic s) (corpus_words s X)))).
Proof. unfold learn. now destruct s. Qed.

Lemma pos_dic_learn (s : StaticPreprocessor) (X : list (list str)) :
  pos_dic (learn s X) = add_keys (pos_dic s) (corpus_poses s X).
Proof. unfold learn. now destruct s. Qed.

Lemma label_dic_learn (s : StaticPreprocessor) (X : list (list str)) :
  label_dic (learn s X) = label_dic s.
Proof. unfold learn. now destruct s. Qed.

Lemma bies_dic_learn (s : StaticPreprocessor) (X : list (list str)) :
  bies_dic (learn s X) = bies_dic s.
Proof. unfold learn. now destruct s. Qed.

Lemma char_type_dic_learn (s : StaticPreprocessor) (X : list (list str)) :
  char_type_dic (learn s X) = char_type_dic s.
Proof. unfold learn. now destruct s. Qed.

Lemma vocab_init_learn (s : StaticPreprocessor) (X : list (list str)) :
  _vocab_init (learn s X) = _vocab_init s.
Proof. unfold learn. now rewrite !vocab_init_setattr. Qed.

(** Two objects with the same attributes are the same object. *)
Lemma object_ext (s s' : StaticPreprocessor) :
  _lowercase s = _lowercase s' -> _num_norm s = _num_norm s' ->
  _vocab_init s = _vocab_init s' ->
  word_dic s = word_dic s' -> char_dic s = char_dic s' ->
  pos_dic s = pos_dic s' -> label_dic s = label_dic s' ->
  bies_dic s = bies_dic s' -> char_type_dic s = char_type_dic s' ->
  s = s'.
Proof. destruct s, s'; simpl; intros; now subst. Qed.

Lemma learn_nil (s : StaticPreprocessor) : learn s [] = s.
Proof. unfold learn. now destruct s. Qed.

Lemma learn_cons (s : StaticPreprocessor) (doc : list str)
    (X : list (list str)) :
  learn (learn s [doc]) X = learn s (doc :: X).
Proof.
  assert (Hw : words_of (learn s [doc]) = words_of s)
    by (apply words_of_flags;
        [apply lowercase_learn | apply num_norm_learn]).
  assert (Hp : poses_of (learn s [doc]) = poses_of s)
    by (apply poses_of_flags;
        [apply lowercase_learn | apply num_norm_learn]).
  assert (Hcw : corpus_words s (doc :: X)
                = corpus_words s [doc] ++ corpus_words s X)
    by (unfold corpus_words; simpl; now rewrite app_nil_r).
  assert (Hcp : corpus_poses s (doc :: X)
                = corpus_poses s [doc] ++ corpus_poses s X)
    by (unfold corpus_poses; simpl; now rewrite app_nil_r).
  assert (Hcw' : corpus_words (learn s [doc]) X = corpus_words s X)
    by (unfold corpus_words; now rewrite Hw).
  assert (Hcp' : corpus_poses (learn s [doc]) X = corpus_poses s X)
    by (unfold corpus_poses; now rewrite Hp).
  apply object_ext.
  - now rewrite !lowercase_learn.
  - now rewrite !num_norm_learn.
  - now rewrite !vocab_init_learn.
  - rewrite !word_dic_learn, Hcw', Hcw. symmetry. apply add_keys_app.
  - rewrite !char_dic_learn, !word_dic_learn, Hcw', Hcw.
    pose proof (word_step_fold (corpus_words s [doc] ++ corpus_words s X)
                  (word_dic s) (char_dic s)) as H.
    rewrite fold_left_app, !word_step_fold in H.
    now apply (f_equal snd) in H.
  - rewrite !pos_dic_learn, Hcp', Hcp. symmetry. apply add_keys_app.
  - now rewrite !label_dic_learn.
  - now rewrite !bies_dic_learn.
  - now rewrite !char_type_dic_learn.
Qed.

Lemma fit_docs_run (X : list (list str)) (s : StaticPreprocessor) :
  forallb (tokenizes s) X = true -> for_ X fit_doc s = (Ok tt, learn s X).
Proof.
  revert s. induction X as [|doc X IH]; intros s H.
  - simpl. now rewrite learn_nil.
  - simpl in H. apply andb_true_iff in H as [Hd HX].
    simpl. rewrite (bind_ok _ _ (fit_doc_run doc s Hd)).
    rewrite IH; [now rewrite learn_cons|].
    rewrite (tokenizes_flags (learn s [doc]) s); auto.
    + apply lowercase_learn.
    + apply num_norm_learn.
Qed.

Lemma fit_docs_inv (X : list (list str)) (s s' : StaticPreprocessor) :
  for_ X fit_doc s = (Ok tt, s') -> forallb (tokenizes s) X = true.
Proof.
  revert s. induction X as [|doc X IH]; intros s H; [reflexivity|].
  simpl. destruct (tokenizes s doc) eqn:Hd.
  - simpl in H. rewrite (bind_ok _ _ (fit_doc_run doc s Hd)) in H.
    apply IH in H.
    rewrite (tokenizes_flags (learn s [doc]) s) in H; auto.
    + apply lowercase_learn.
    + apply num_norm_learn.
  - destruct (fit_doc_raise doc s Hd) as [e He].
    simpl in H. rewrite (bind_raise _ _ He) in H. discriminate.
Qed.

Lemma label_loop_run (l : list str) (s : StaticPreprocessor) :
  for_ l (fun t => register a_label_dic t) s
  = (Ok tt, setattr a_label_dic (set_labels (label_dic s) l) s).
Proof.
  revert s. induction l as [|t l IH]; intro s.
  - simpl. unfold ret. now destruct s.
  - simpl for_. unfold bind at 1. unfold register at 1.
    unfold bind, len_of, read, setitem. rewrite IH.
    now destruct s.
Qed.

(** [fit] returns when every document tokenizes and labels are given, and
    then the object is [learn_labels]. *)
Lemma fit_run (X : list (list str)) (y : list (list str))
    (s : StaticPreprocessor) :
  forallb (tokenizes s) X = true ->
  fit X (Some y) s = (Ok tt, learn_labels s X y).
Proof.
  intro H. unfold fit. rewrite (bind_ok _ _ (fit_docs_run X s H)).
  apply label_loop_run.
Qed.

Lemma fit_inv (X : list (list str)) (y : option (list (list str)))
    (s s' : StaticPreprocessor) :
  fit X y s = (Ok tt, s') ->
  exists y', y = Some y' /\ forallb (tokenizes s) X = true /\
             s' = learn_labels s X y'.
Proof.
  intro H. unfold fit in H.
  destruct (for_ X fit_doc s) as [[[]|e] s1] eqn:E.
  - pose proof (fit_docs_inv X s s1 E) as HX.
    rewrite (bind_ok _ _ E) in H. rewrite (fit_docs_run X s HX) in E.
    injection E as <-.
    destruct y as [y'|]; [|discriminate].
    exists y'. rewrite label_loop_run in H. injection H as <-.
    auto.
  - rewrite (bind_raise _ _ E) in H. discriminate.
Qed.

End Fit.

(** ** Methods that only read *)

Lemma readonly_ret {S A} (a : A) : readonly (@ret S A a).
Proof. intro s. reflexivity. Qed.

Lemma readonly_raise {S A} (e : exn) : readonly (@raise S A e).
Proof. intro s. reflexivity. Qed.

Lemma readonly_call {S A} (r : result A) : readonly (@call S A r).
Proof. intro s. reflexivity. Qed.

Lemma readonly_read {S A} (f : S -> A) : readonly (read f).
Proof. intro s. reflexivity. Qed.

Lemma readonly_assert {S} (b : bool) : readonly (@assert S b).
Proof. intro s. now destruct b. Qed.

Lemma readonly_bind {S A B} (m : M S A) (f : A -> M S B) :
  readonly m -> (forall a, readonly (f a)) -> readonly (bind m f).
Proof.
  intros Hm Hf s. unfold bind. specialize (Hm s).
  destruct (m s) as [[a|e] s1]; simpl in Hm; subst s1.
  - apply Hf.
  - reflexivity.
Qed.

Lemma readonly_comprehension {S A B} (f : A -> M S B) (l : list A) :
  (forall x, readonly (f x)) -> readonly (comprehension f l).
Proof.
  intro Hf. induction l as [|x l IH]; simpl.
  - apply readonly_ret.
  - apply readonly_bind; [apply Hf | intro y].
    apply readonly_bind; [apply IH | intro ys]. apply readonly_ret.
Qed.

Lemma readonly_for {S A} (l : list A) (body : A -> M S unit) :
  (forall x, readonly (body x)) -> readonly (for_ l body).
Proof.
  intro Hb. induction l as [|x l IH]; simpl.
  - apply readonly_ret.
  - apply readonly_bind; [apply Hb | intros _; apply IH].
Qed.

Lemma readonly_contains (a : attr) (k : str) : readonly (contains a k).
Proof. apply readonly_read. Qed.

Lemma readonly_getitem (a : attr) (k : str) : readonly (getitem a k).
Proof.
  intro s. unfold getitem. now destruct (dict_get (getattr a s) k).
Qed.

Lemma readonly_get_or (a : attr) (k : str) (v : Z) : readonly (get_or a k v).
Proof. apply readonly_read. Qed.

Lemma readonly_len_of (a : attr) : readonly (len_of a).
Proof. apply readonly_read. Qed.

Lemma readonly_idict_getitem (d : idict) (k : Z) :
  readonly (idict_getitem d k).
Proof.
  unfold idict_getitem.
  destruct (idict_get d k); [apply readonly_ret | apply readonly_raise].
Qed.

Create HintDb readonly.
#[export] Hint Resolve readonly_ret readonly_raise readonly_call
  readonly_read readonly_assert readonly_contains readonly_getitem
  readonly_get_or readonly_len_of readonly_idict_getitem : readonly.

(** Goes through a method body and checks that every step only reads. *)
Ltac only_reads :=
  repeat first
    [ progress auto with readonly
    | apply readonly_bind; [|intro]
    | apply readonly_comprehension; intro
    | apply readonly_for; intro
    | match goal with
      | |- readonly (let (_, _) := ?p in _) => destruct p
      | |- readonly (if ?b then _ else _) => destruct b
      | |- readonly (match ?o with Some _ => _ | None => _ end) => destruct o
      end ].

Section ReadOnly.
Context {RT : PyRuntime}.

Lemma readonly_normalized (doc : list str) : readonly (normalized doc).
Proof. unfold normalized. only_reads. Qed.

Lemma readonly_get_char_ids (word : str) : readonly (_get_char_ids word).
Proof. unfold _get_char_ids. only_reads. Qed.

Lemma readonly_get_char_types (word : str) : readonly (get_char_types word).
Proof. unfold get_char_types. only_reads. Qed.

Lemma readonly_get_bies (word : str) : readonly (get_bies word).
Proof. unfold get_bies. only_reads. Qed.

Lemma readonly_broadcast (a : attr) (k w : str) : readonly (broadcast a k w).
Proof. unfold broadcast. only_reads. Qed.

#[local] Hint Resolve readonly_normalized readonly_get_char_ids
  readonly_get_char_types readonly_get_bies readonly_broadcast : readonly.

Lemma readonly_transform_doc (doc : list str) (acc : streams) :
  readonly (transform_doc doc acc).
Proof. unfold transform_doc. only_reads. Qed.

Lemma readonly_transform_loop (X : list (list str)) (acc : streams) :
  readonly (transform_loop X acc).
Proof.
  revert acc. induction X as [|doc X IH]; intro acc; simpl.
  - apply readonly_ret.
  - apply readonly_bind; [apply readonly_transform_doc | intro a; apply IH].
Qed.

Lemma readonly_inverse_transform (X docs : option (list (list Z))) :
  readonly (inverse_transform X docs).
Proof. unfold inverse_transform. only_reads. Qed.

End ReadOnly.

(** ** Arrays *)

Lemma int32_small (z : Z) : - 2 ^ 31 <= z < 2 ^ 31 -> int32 z = z.
Proof.
  intro H. unfold int32. rewrite Z.mod_small; lia.
Qed.

Lemma map_repeat {A B} (f : A -> B) (x : A) (n : nat) :
  map f (repeat x n) = repeat (f x) n.
Proof. induction n; simpl; congruence. Qed.

Lemma map_const_seq {A} (v : A) (a n : nat) :
  map (fun _ => v) (seq a n) = repeat v n.
Proof. revert a. induction n; intro a; simpl; [|rewrite IHn]; reflexivity. Qed.

Lemma length_concat_map {A B} (f : A -> list B) (g : A -> nat)
    (l : list A) :
  (forall x, In x l -> length (f x) = g x) ->
  length (concat (map f l)) = list_sum (map g l).
Proof.
  induction l as [|x l IH]; intro H; simpl; [reflexivity|].
  rewrite length_app, H, IH; auto.
  - intros z Hz. apply H. now right.
  - now left.
Qed.

Lemma total_chars_sum (ws : list str) :
  total_chars ws = list_sum (map (@length char) ws).
Proof.
  unfold total_chars. rewrite <- (map_id ws) at 1.
  now apply length_concat_map.
Qed.

Lemma set_nth_last (x v : Z) (m : nat) :
  set_nth (repeat x (S m)) m v = repeat x m ++ [v].
Proof. induction m as [|m IH]; simpl; [|simpl in IH; rewrite IH]; reflexivity. Qed.

Lemma length_bies_tags (w : str) :
  length w <> 0%nat -> length (bies_tags w) = length w.
Proof.
  unfold bies_tags. destruct (length w) as [|[|n]]; intro H.
  - contradiction.
  - reflexivity.
  - simpl. rewrite length_app, repeat_length. simpl. lia.
Qed.

Lemma Forall_int32_id (l : list Z) :
  Forall (fun z => - 2 ^ 31 <= z < 2 ^ 31) l -> np_int32 l = l.
Proof.
  unfold np_int32. induction 1 as [|z l Hz Hl IH]; simpl; [reflexivity|].
  now rewrite IH, int32_small.
Qed.

Lemma bies_tags_range (w : str) :
  Forall (fun z => - 2 ^ 31 <= z < 2 ^ 31) (bies_tags w).
Proof.
  unfold bies_tags. destruct (length w) as [|[|n]].
  - simpl. repeat constructor; lia.
  - repeat constructor; lia.
  - simpl. constructor; [lia|]. apply Forall_app. split.
    + apply Forall_forall. intros z Hz. apply repeat_spec in Hz. lia.
    + repeat constructor; lia.
Qed.

Section CharTypes.
Context {RT : PyRuntime}.

Lemma get_character_type_range (ch : char) :
  1 <= get_character_type ch <= 7.
Proof.
  unfold get_character_type.
  destruct (isspace ch), (isdigit ch), (islower ch), (isupper ch),
    (is_hiragana ch), (is_katakana ch); lia.
Qed.

(** [tokenize] appends to both of its lists at once. *)
Lemma tokenize_chunks_lengths (chunks : list str) (ws ps ws' ps' : list str) :
  tokenize_chunks chunks ws ps = Ok (ws', ps') ->
  length ws = length ps -> length ws' = length ps'.
Proof.
  revert ws ps.
  induction chunks as [|chunk rest IH]; intros ws ps; cbn [tokenize_chunks].
  - intros H. inversion H; subst. auto.
  - destruct chunk as [|c chunk]; [apply IH|].
    destruct (nth_error (split 9%N (c :: chunk)) 0) as [surface|];
      [|discriminate].
    destruct (nth_error (split 9%N (c :: chunk)) 1) as [feature|];
      [|discriminate].
    intros H Hl. apply IH in H; [exact H|].
    rewrite !length_app. simpl. lia.
Qed.

Lemma tokenize_lengths (text : str) (ws ps : list str) :
  tokenize text = Ok (ws, ps) -> length ws = length ps.
Proof.
  unfold tokenize. intro H.
  now apply tokenize_chunks_lengths in H.
Qed.

Lemma words_poses_length (s : StaticPreprocessor) (doc : list str) :
  length (words_of s doc) = length (poses_of s doc).
Proof.
  unfold words_of, poses_of, tokens_of.
  destruct (tokenize (norm_text (_lowercase s) (_num_norm s) doc))
    as [[ws ps]|e] eqn:E; [|reflexivity].
  simpl. now apply tokenize_lengths in E.
Qed.

End CharTypes.

(** ** What [transform] computes *)

Lemma comprehension_cases {S A B} (f : A -> M S B) (g : A -> B)
    (p : A -> bool) (e : exn) (l : list A) (s : S) :
  (forall x, p x = true -> f x s = (Ok (g x), s)) ->
  (forall x, p x = false -> f x s = (Raise e, s)) ->
  comprehension f l s
  = if forallb p l then (Ok (map g l), s) else (Raise e, s).
Proof.
  intros Hok Hraise. induction l as [|x l IH]; [reflexivity|].
  simpl. destruct (p x) eqn:Hx; simpl.
  - rewrite (bind_ok _ _ (Hok x Hx)). unfold bind at 1. rewrite IH.
    now destruct (forallb p l).
  - now rewrite (bind_raise _ _ (Hraise x Hx)).
Qed.

Section Transform.
Context {RT : PyRuntime}.

Lemma broadcast_run (a : attr) (k w : str) (s : StaticPreprocessor) :
  dict_get (getattr a s) UNK = Some 1 ->
  broadcast a k w s = (Ok (repeat (id_or_unk (getattr a s) k) (length w)), s).
Proof.
  intro H. unfold broadcast.
  rewrite (comprehension_map _ (fun _ => id_or_unk (getattr a s) k)).
  - now rewrite map_const_seq.
  - intros x _. unfold bind, getitem. rewrite H. reflexivity.
Qed.

Lemma get_char_ids_run (w : str) (s : StaticPreprocessor) :
  dict_get (char_dic s) UNK = Some 1 ->
  _get_char_ids w s = (Ok (map (fun c => id_or_unk (char_dic s) [c]) w), s).
Proof.
  intro H. unfold _get_char_ids. apply comprehension_map.
  intros c _. unfold bind, getitem. simpl getattr. rewrite H. reflexivity.
Qed.

Lemma get_char_types_run (w : str) (s : StaticPreprocessor) :
  get_char_types w s = (Ok (map get_character_type w), s).
Proof. unfold get_char_types. now apply comprehension_map. Qed.

Lemma getitem_bies (k : str) (v : Z) (s : StaticPreprocessor) :
  bies_dic s = [(key_B, 1); (key_I, 2); (key_E, 3); (key_S, 4)] ->
  dict_get [(key_B, 1); (key_I, 2); (key_E, 3); (key_S, 4)] k = Some v ->
  getitem a_bies_dic k s = (Ok v, s).
Proof. intros H Hk. unfold getitem. simpl getattr. now rewrite H, Hk. Qed.

Lemma list_setitem_first (x v : Z) (n : nat) :
  list_setitem (repeat x (S n)) 0 v = Ok (v :: repeat x n).
Proof.
  unfold list_setitem. rewrite repeat_length.
  replace (0 <? 0) with false by reflexivity.
  replace ((0 <=? 0) && (0 <? Z.of_nat (S n))) with true; [reflexivity|].
  symmetry. apply andb_true_iff. split; [reflexivity | apply Z.ltb_lt; lia].
Qed.

Lemma list_setitem_last (x0 x v : Z) (n : nat) :
  list_setitem (x0 :: repeat x (S n)) (-1) v = Ok (x0 :: repeat x n ++ [v]).
Proof.
  unfold list_setitem. simpl length. rewrite repeat_length.
  replace (-1 <? 0) with true by reflexivity.
  replace (-1 + Z.of_nat (S (S n))) with (Z.of_nat (S n)) by lia.
  replace ((0 <=? Z.of_nat (S n)) && (Z.of_nat (S n) <? Z.of_nat (S (S n))))
    with true
    by (symmetry; apply andb_true_iff; split;
        [apply Z.leb_le | apply Z.ltb_lt]; lia).
  rewrite Nat2Z.id. cbn [set_nth]. now rewrite set_nth_last.
Qed.

Lemma get_bies_run (w : str) (s : StaticPreprocessor) :
  bies_dic s = [(key_B, 1); (key_I, 2); (key_E, 3); (key_S, 4)] ->
  get_bies w s
  = if (length w =? 0)%nat then (Raise IndexError, s)
    else (Ok (bies_tags w), s).
Proof.
  intro H. unfold get_bies, bies_tags.
  destruct (length w) as [|[|n]]; cbn [Nat.eqb].
  - rewrite (bind_ok _ _ (getitem_bies key_I 2 s H eq_refl)).
    rewrite (bind_ok _ _ (getitem_bies key_B 1 s H eq_refl)).
    reflexivity.
  - rewrite (bind_ok _ _ (getitem_bies key_S 4 s H eq_refl)).
    reflexivity.
  - rewrite (bind_ok _ _ (getitem_bies key_I 2 s H eq_refl)).
    rewrite (bind_ok _ _ (getitem_bies key_B 1 s H eq_refl)).
    unfold call at 1. unfold bind at 1. rewrite list_setitem_first.
    rewrite (bind_ok _ _ (getitem_bies key_E 3 s H eq_refl)).
    unfold call at 1. unfold bind at 1. rewrite list_setitem_last.
    simpl. now rewrite Nat.sub_0_r.
Qed.

Lemma transform_doc_run (doc : list str) (acc : streams)
    (s : StaticPreprocessor) :
  ready s -> well_tokenized s doc = true ->
  transform_doc doc acc s
  = (Ok {| x_words := x_words acc ++ [word_stream s doc];
           x_chars := x_chars acc ++ [char_stream s doc];
           x_bies := x_bies acc ++ [bies_stream s doc];
           x_poses := x_poses acc ++ [pos_stream s doc];
           x_types := x_types acc ++ [type_stream s doc] |}, s).
Proof.
  intros (Hw & Hc & Hp & Hb) Hdoc.
  pose proof (words_poses_length s doc) as Hlen.
  unfold well_tokenized in Hdoc. apply andb_true_iff in Hdoc as [Htok Hne].
  unfold word_stream, char_stream, bies_stream, pos_stream, type_stream.
  revert Hlen Hne. unfold words_of, poses_of, tokens_of.
  unfold tokenizes in Htok. unfold transform_doc.
  rewrite (bind_ok _ _ (normalized_run doc s)).
  destruct (tokenize (norm_text (_lowercase s) (_num_norm s) doc))
    as [[ws ps]|e]; [clear Htok | discriminate].
  simpl fst. simpl snd. intros Hlen Hne.
  unfold call at 1. unfold bind at 1.
  rewrite (bind_ok _ _
    (comprehension_map _
       (fun w => repeat (id_or_unk (word_dic s) w) (length w)) ws s
       (fun w _ => broadcast_run a_word_dic w w s Hw))).
  rewrite (bind_ok _ _
    (comprehension_map _
       (fun w => map (fun c => id_or_unk (char_dic s) [c]) w) ws s
       (fun w _ => get_char_ids_run w s Hc))).
  assert (Hbies : comprehension get_bies ws s = (Ok (map bies_tags ws), s)).
  { apply comprehension_map. intros w Hin. rewrite (get_bies_run w s Hb).
    rewrite forallb_forall in Hne. specialize (Hne w Hin).
    now destruct (length w =? 0)%nat. }
  rewrite (bind_ok _ _ Hbies).
  rewrite (bind_ok _ _
    (comprehension_map _
       (fun wp => repeat (id_or_unk (pos_dic s) (snd wp)) (length (fst wp)))
       (combine ws ps) s
       (fun wp _ => broadcast_run a_pos_dic (snd wp) (fst wp) s Hp))).
  rewrite (bind_ok _ _
    (comprehension_map _ (map get_character_type) ws s
       (fun w _ => get_char_types_run w s))).
  assert (Lw : length (chain (map (fun w =>
                 repeat (id_or_unk (word_dic s) w) (length w)) ws))
               = list_sum (map (@length char) ws)).
  { apply length_concat_map. intros. apply repeat_length. }
  assert (Lc : length (chain (map (fun w =>
                 map (fun c => id_or_unk (char_dic s) [c]) w) ws))
               = list_sum (map (@length char) ws)).
  { apply length_concat_map. intros. apply length_map. }
  assert (Lb : length (chain (map bies_tags ws))
               = list_sum (map (@length char) ws)).
  { apply length_concat_map. intros w Hin. apply length_bies_tags.
    rewrite forallb_forall in Hne. specialize (Hne w Hin).
    destruct (length w); [discriminate | lia]. }
  assert (Lp : length (chain (map (fun wp =>
                 repeat (id_or_unk (pos_dic s) (snd wp)) (length (fst wp)))
                 (combine ws ps)))
               = list_sum (map (@length char) ws)).
  { rewrite (length_concat_map _ (fun wp => length (fst wp)))
      by (intros; apply repeat_length).
    rewrite <- (map_map fst (@length char)).
    clear - Hlen. f_equal. f_equal.
    revert ps Hlen. induction ws as [|w ws IH]; intros [|p ps] Hlen;
      simpl in *; try discriminate; [reflexivity|].
    f_equal. apply IH. lia. }
  rewrite Lw, Lc, Lb, Lp, Nat.eqb_refl. unfold assert, bind, ret.
  unfold np_int32, chain.
  assert (E1 : forall (f : str -> Z),
             map int32 (concat (map (fun w => repeat (f w) (length w)) ws))
             = concat (map (fun w => repeat (int32 (f w)) (length w)) ws)).
  { intro f. rewrite concat_map, map_map. f_equal.
    apply map_ext. intro w. apply map_repeat. }
  assert (E2 : forall (f : char -> Z),
             map int32 (concat (map (fun w : list char => map f w) ws))
             = map (fun c => int32 (f c)) (concat ws)).
  { intro f. change (fun w : list char => map f w) with (map f).
    rewrite <- concat_map. now rewrite map_map. }
  assert (E3 : map int32 (concat (map bies_tags ws))
               = concat (map bies_tags ws)).
  { apply Forall_int32_id.
    apply Forall_concat. apply Forall_map. apply Forall_forall.
    intros w _. apply bies_tags_range. }
  assert (E4 : forall (f : str -> Z),
             map int32 (concat (map (fun wp : list char * str =>
                          repeat (f (snd wp)) (length (fst wp)))
                          (combine ws ps)))
             = concat (map (fun wp : list char * str =>
                          repeat (int32 (f (snd wp))) (length (fst wp)))
                          (combine ws ps))).
  { intro f. rewrite concat_map, map_map. f_equal.
    apply map_ext. intro w. apply map_repeat. }
  assert (E5 : map int32 (concat (map (map get_character_type) ws))
               = map get_character_type (concat ws)).
  { rewrite <- concat_map. apply Forall_int32_id.
    apply Forall_map. apply Forall_forall. intros c _.
    pose proof (get_character_type_range c). simpl. lia. }
  rewrite (E1 (id_or_unk (word_dic s))).
  rewrite (E2 (fun c => id_or_unk (char_dic s) [c])).
  rewrite E3, (E4 (id_or_unk (pos_dic s))), E5.
  reflexivity.
Qed.

End Transform.

Section TransformAll.
Context {RT : PyRuntime}.

Lemma transform_loop_run (X : list (list str)) (acc : streams)
    (s : StaticPreprocessor) :
  ready s -> forallb (well_tokenized s) X = true ->
  transform_loop X acc s
  = (Ok {| x_words := x_words acc ++ map (word_stream s) X;
           x_chars := x_chars acc ++ map (char_stream s) X;
           x_bies := x_bies acc ++ map (bies_stream s) X;
           x_poses := x_poses acc ++ map (pos_stream s) X;
           x_types := x_types acc ++ map (type_stream s) X |}, s).
Proof.
  intro Hr. revert acc. induction X as [|doc X IH]; intros acc HX.
  - simpl. rewrite !app_nil_r. now destruct acc.
  - simpl in HX. apply andb_true_iff in HX as [Hd HX].
    simpl transform_loop.
    rewrite (bind_ok _ _ (transform_doc_run doc acc s Hr Hd)).
    rewrite (IH _ HX). simpl. now rewrite <- !app_assoc.
Qed.

Lemma label_lookup_run (y : list (list str)) (s : StaticPreprocessor) :
  comprehension (comprehension (fun t => getitem a_label_dic t)) y s
  = if labels_known s y then (Ok (label_ids s y), s)
    else (Raise KeyError, s).
Proof.
  unfold labels_known, label_ids.
  apply comprehension_cases; intros sent Hsent.
  - rewrite (comprehension_cases _
               (fun t => match dict_get (label_dic s) t with
                         | Some v => v
                         | None => 0
                         end)
               (dict_mem (label_dic s)) KeyError).
    + now rewrite Hsent.
    + intros t Ht. unfold getitem, dict_mem in *. simpl getattr.
      now destruct (dict_get (label_dic s) t).
    + intros t Ht. unfold getitem, dict_mem in *. simpl getattr.
      now destruct (dict_get (label_dic s) t).
  - rewrite (comprehension_cases _
               (fun t => match dict_get (label_dic s) t with
                         | Some v => v
                         | None => 0
                         end)
               (dict_mem (label_dic s)) KeyError).
    + now rewrite Hsent.
    + intros t Ht. unfold getitem, dict_mem in *. simpl getattr.
      now destruct (dict_get (label_dic s) t).
    + intros t Ht. unfold getitem, dict_mem in *. simpl getattr.
      now destruct (dict_get (label_dic s) t).
Qed.

(** [transform] on a ready object and documents that tokenize into
    non-empty words: the five streams, and the label IDs or a [KeyError]. *)
Lemma transform_run (X : list (list str)) (y : option (list (list str)))
    (s : StaticPreprocessor) :
  ready s -> forallb (well_tokenized s) X = true ->
  transform X y s
  = match y with
    | None => (Ok (streams_of s X, None), s)
    | Some y =>
        if labels_known s y
        then (Ok (streams_of s X, Some (label_ids s y)), s)
        else (Raise KeyError, s)
    end.
Proof.
  intros Hr HX. unfold transform.
  rewrite (bind_ok _ _ (transform_loop_run X _ s Hr HX)). simpl app.
  destruct y as [y|]; [|reflexivity].
  unfold bind at 1. unfold bind at 1. rewrite label_lookup_run.
  now destruct (labels_known s y).
Qed.

Lemma ready_init (lc nn : bool) (vi : option dict) :
  ready (StaticPreprocessor_init lc nn vi).
Proof. repeat split. Qed.

Lemma dict_get_mem (d : dict) (k : str) (v : Z) :
  dict_get d k = Some v -> dict_mem d k = true.
Proof. unfold dict_mem. now intros ->. Qed.

Lemma ready_learn_labels (s : StaticPreprocessor) (X : list (list str))
    (y : list (list str)) :
  ready s -> ready (learn_labels s X y).
Proof.
  intros (Hw & Hc & Hp & Hb). unfold learn_labels.
  assert (E : forall d s', setattr a_label_dic d s'
                = Build_StaticPreprocessor (_lowercase s') (_num_norm s')
                    (_vocab_init s') (word_dic s') (char_dic s') (pos_dic s')
                    d (bies_dic s') (char_type_dic s'))
    by (intros d s'; now destruct s').
  rewrite E. unfold ready. simpl.
  rewrite word_dic_learn, char_dic_learn, pos_dic_learn, bies_dic_learn.
  rewrite !dict_get_add_keys; eauto using dict_get_mem.
Qed.

Lemma fitted_ready (s : StaticPreprocessor) : fitted s -> ready s.
Proof.
  induction 1 as [lc nn vi X y s H | X y s s' _ IH H];
    apply fit_inv in H as (y' & -> & _ & ->);
    apply ready_learn_labels; [apply ready_init | exact IH].
Qed.

End TransformAll.

(** ** Lengths of the streams *)

Section Streams.
Context {RT : PyRuntime}.

Lemma map_fst_combine {A B} (l : list A) (l' : list B) :
  length l = length l' -> map fst (combine l l') = l.
Proof.
  revert l'. induction l as [|x l IH]; intros [|x' l'] H;
    simpl in *; try discriminate; [reflexivity|].
  f_equal. apply IH. lia.
Qed.

Lemma stream_lengths (s : StaticPreprocessor) (doc : list str) :
  well_tokenized s doc = true ->
  let n := total_chars (words_of s doc) in
  length (word_stream s doc) = n /\
  length (char_stream s doc) = n /\
  length (bies_stream s doc) = n /\
  length (pos_stream s doc) = n /\
  length (type_stream s doc) = n.
Proof.
  intro H. unfold well_tokenized in H.
  apply andb_true_iff in H as [_ Hne]. rewrite forallb_forall in Hne.
  simpl. rewrite total_chars_sum.
  unfold word_stream, char_stream, bies_stream, pos_stream, type_stream.
  repeat split.
  - apply length_concat_map. intros. apply repeat_length.
  - rewrite length_map. apply total_chars_sum.
  - apply length_concat_map. intros w Hin. apply length_bies_tags.
    specialize (Hne w Hin). destruct (length w); [discriminate | lia].
  - rewrite (length_concat_map _ (fun wp => length (fst wp)))
      by (intros; apply repeat_length).
    rewrite <- (map_map fst (@length char)).
    now rewrite map_fst_combine by apply words_poses_length.
  - rewrite length_map. apply total_chars_sum.
Qed.

End Streams.

(** ** Decoding *)

Lemma idict_set_new (m : idict) (k : Z) (v : str) :
  ~ In k (map fst m) -> idict_set m k v = m ++ [(k, v)].
Proof.
  induction m as [|[k' v'] m IH]; simpl; intro H; [reflexivity|].
  destruct (Z.eqb_spec k' k) as [->|Hk]; [tauto|].
  rewrite IH; tauto.
Qed.

Lemma invert_from (d : dict) (m : idict) :
  NoDup (map fst m ++ values d) ->
  fold_left (fun m ci => idict_set m (snd ci) (fst ci)) d m
  = m ++ map (fun ci => (snd ci, fst ci)) d.
Proof.
  revert m. induction d as [|[k v] d IH]; intros m H; simpl.
  - now rewrite app_nil_r.
  - simpl in H. rewrite idict_set_new.
    + rewrite IH.
      * now rewrite <- app_assoc.
      * rewrite map_app. simpl. rewrite <- app_assoc. exact H.
    + apply NoDup_remove_2 in H. intro Hin. apply H.
      apply in_or_app. now left.
Qed.

Lemma invert_swap (d : dict) :
  NoDup (values d) -> invert d = map (fun ci => (snd ci, fst ci)) d.
Proof. intro H. unfold invert. now rewrite invert_from. Qed.

Lemma idict_get_swap (d : dict) (k : str) (v : Z) :
  NoDup (values d) -> In (k, v) d ->
  idict_get (map (fun ci => (snd ci, fst ci)) d) v = Some k.
Proof.
  induction d as [|[k' v'] d IH]; simpl; [tauto|].
  intros Hnd Hin. inversion Hnd as [|? ? Hnot Hnd']; subst.
  destruct Hin as [E|Hin].
  - inversion E; subst. now rewrite Z.eqb_refl.
  - destruct (Z.eqb_spec v' v) as [->|Hv]; [|auto].
    exfalso. apply Hnot. unfold values.
    change v with (snd (k, v)). now apply in_map.
Qed.

(** In a well-numbered dictionary the ID of a key leads back to it. *)
Lemma invert_get (d : dict) (k : str) (v : Z) :
  contiguous d -> dict_get d k = Some v -> idict_get (invert d) v = Some k.
Proof.
  intros Hd Hk. pose proof (contiguous_values_NoDup d Hd) as Hnd.
  rewrite invert_swap by exact Hnd.
  apply idict_get_swap; [exact Hnd | now apply dict_get_In].
Qed.

Lemma contiguous_id_bound (d : dict) (k : str) (v : Z) :
  contiguous d -> dict_get d k = Some v -> 0 <= v < dict_len d.
Proof.
  intros [_ Hv] Hk. apply dict_get_In in Hk.
  assert (Hin : In v (values d)).
  { unfold values. change v with (snd (k, v)). now apply in_map. }
  rewrite Hv in Hin. apply In_ids_from in Hin. unfold dict_len. lia.
Qed.

Lemma contiguous_sentinels : contiguous [(PAD, 0); (UNK, 1)].
Proof.
  split; [|reflexivity].
  repeat constructor; simpl; intuition discriminate.
Qed.

Section Decoding.
Context {RT : PyRuntime}.

Lemma fitted_contiguous (s : StaticPreprocessor) :
  fitted s ->
  contiguous (word_dic s) /\ contiguous (char_dic s) /\
  contiguous (pos_dic s).
Proof.
  assert (Hstep : forall s X y,
            contiguous (word_dic s) /\ contiguous (char_dic s) /\
            contiguous (pos_dic s) ->
            contiguous (word_dic (learn_labels s X y)) /\
            contiguous (char_dic (learn_labels s X y)) /\
            contiguous (pos_dic (learn_labels s X y))).
  { intros s0 X y (Hw & Hc & Hp). unfold learn_labels.
    assert (E : forall d s', setattr a_label_dic d s'
                = Build_StaticPreprocessor (_lowercase s') (_num_norm s')
                    (_vocab_init s') (word_dic s') (char_dic s') (pos_dic s')
                    d (bies_dic s') (char_type_dic s'))
      by (intros d s'; now destruct s').
    rewrite E. simpl.
    rewrite word_dic_learn, char_dic_learn, pos_dic_learn.
    repeat split; now apply contiguous_add_keys. }
  induction 1 as [lc nn vi X y s H | X y s s' _ IH H];
    apply fit_inv in H as (y' & -> & _ & ->); apply Hstep; [|exact IH].
  simpl. repeat split; apply contiguous_sentinels.
Qed.

(** The three open vocabularies of a fitted preprocessor: well numbered,
    no ID twice, PAD at 0 and UNK at 1. *)
Lemma fitted_open_vocabularies (s : StaticPreprocessor) (a : attr) :
  fitted s ->
  a = a_word_dic \/ a = a_char_dic \/ a = a_pos_dic ->
  contiguous (getattr a s) /\ injective (getattr a s) /\
  dict_get (getattr a s) PAD = Some 0 /\
  dict_get (getattr a s) UNK = Some 1.
Proof.
  intros Hfit Ha.
  assert (Hpad : dict_get (word_dic s) PAD = Some 0 /\
                 dict_get (char_dic s) PAD = Some 0 /\
                 dict_get (pos_dic s) PAD = Some 0).
  { clear Ha.
    assert (Hstep : forall s0 X y,
              dict_get (word_dic s0) PAD = Some 0 /\
              dict_get (char_dic s0) PAD = Some 0 /\
              dict_get (pos_dic s0) PAD = Some 0 ->
              dict_get (word_dic (learn_labels s0 X y)) PAD = Some 0 /\
              dict_get (char_dic (learn_labels s0 X y)) PAD = Some 0 /\
              dict_get (pos_dic (learn_labels s0 X y)) PAD = Some 0).
    { intros s0 X y (Hw & Hc & Hp). unfold learn_labels.
      assert (E : forall d s', setattr a_label_dic d s'
                  = Build_StaticPreprocessor (_lowercase s') (_num_norm s')
                      (_vocab_init s') (word_dic s') (char_dic s')
                      (pos_dic s') d (bies_dic s') (char_type_dic s'))
        by (intros d s'; now destruct s').
      rewrite E. simpl.
      rewrite word_dic_learn, char_dic_learn, pos_dic_learn.
      rewrite !dict_get_add_keys; eauto using dict_get_mem. }
    induction Hfit as [lc nn vi X y s H | X y s s' _ IH H];
      apply fit_inv in H as (y' & -> & _ & ->); apply Hstep; [|exact IH].
    repeat split. }
  destruct (fitted_contiguous s Hfit) as (Cw & Cc & Cp).
  destruct (fitted_ready s Hfit) as (Uw & Uc & Up & _).
  destruct Hpad as (Pw & Pc & Pp).
  destruct Ha as [-> | [-> | ->]]; simpl;
    (split; [|split; [apply contiguous_injective|split]]); assumption.
Qed.

Lemma decode_chars_run (cs : str) (s : StaticPreprocessor) :
  contiguous (char_dic s) ->
  dict_len (char_dic s) <= 2 ^ 31 ->
  (forall c, In c cs -> dict_mem (char_dic s) [c] = true) ->
  comprehension (idict_getitem (invert (char_dic s)))
    (map (fun c => int32 (id_or_unk (char_dic s) [c])) cs) s
  = (Ok (map (fun c => [c]) cs), s).
Proof.
  intros Hd Hlen Hcs.
  rewrite (comprehension_map _
             (fun v => match idict_get (invert (char_dic s)) v with
                       | Some k => k
                       | None => []
                       end)).
  - rewrite map_map. do 2 f_equal. apply map_ext_in. intros c Hc.
    specialize (Hcs c Hc). unfold dict_mem, id_or_unk in *.
    destruct (dict_get (char_dic s) [c]) as [v|] eqn:E; [|discriminate].
    pose proof (contiguous_id_bound _ _ _ Hd E) as Hb.
    rewrite int32_small by lia.
    now rewrite (invert_get _ _ _ Hd E).
  - intros v Hv. apply in_map_iff in Hv as (c & <- & Hc).
    specialize (Hcs c Hc). unfold dict_mem, id_or_unk in *.
    destruct (dict_get (char_dic s) [c]) as [v|] eqn:E; [|discriminate].
    pose proof (contiguous_id_bound _ _ _ Hd E) as Hb.
    rewrite int32_small by lia.
    unfold idict_getitem. now rewrite (invert_get _ _ _ Hd E).
Qed.

(** Decoding what [_get_char_ids] wrote: a character with an entry comes
    back, a character without one comes back as the unknown sentinel. *)
Lemma decode_chars_unk (cs : str) (s : StaticPreprocessor) :
  contiguous (char_dic s) ->
  dict_get (char_dic s) UNK = Some 1 ->
  dict_len (char_dic s) <= 2 ^ 31 ->
  comprehension (idict_getitem (invert (char_dic s)))
    (map (fun c => int32 (id_or_unk (char_dic s) [c])) cs) s
  = (Ok (map (fun c => if dict_mem (char_dic s) [c] then [c] else UNK) cs),
     s).
Proof.
  intros Hd Hunk Hlen.
  apply comprehension_map_map. intros c _.
  unfold dict_mem, id_or_unk, idict_getitem.
  destruct (dict_get (char_dic s) [c]) as [v|] eqn:E.
  - pose proof (contiguous_id_bound _ _ _ Hd E) as Hb.
    rewrite int32_small by lia.
    now rewrite (invert_get _ _ _ Hd E).
  - rewrite int32_small by lia.
    now rewrite (invert_get _ _ _ Hd Hunk).
Qed.

End Decoding.

(** ** Labels *)

Lemma set_labels_new (l : list str) (d : dict) :
  NoDup l -> (forall t, In t l -> ~ In t (keys d)) ->
  set_labels d l = extend d l.
Proof.
  revert d. induction l as [|t l IH]; intros d Hnd Hdis.
  - simpl. now rewrite extend_nil.
  - inversion Hnd as [|? ? Ht Hl]; subst.
    change (set_labels d (t :: l))
      with (set_labels (dict_set d t (dict_len d)) l).
    rewrite dict_set_new by (apply dict_mem_false, Hdis; now left).
    rewrite extend_cons. apply IH; [exact Hl|].
    intros t' Ht' Hin. rewrite keys_app in Hin. simpl in Hin.
    apply in_app_or in Hin as [Hin|[<-|[]]].
    + apply (Hdis t'); [now right | exact Hin].
    + contradiction.
Qed.

Section Labels.
Context {RT : PyRuntime}.

Lemma set_iter_singleton (x : str) : set_iter [x] = [x].
Proof.
  pose proof (set_iter_NoDup [x]) as Hnd.
  pose proof (set_iter_In [x]) as Hin.
  destruct (set_iter [x]) as [|a [|b r]].
  - exfalso. apply (Hin x). now left.
  - f_equal. destruct (proj1 (Hin a) (or_introl eq_refl)) as [H|[]].
    now symmetry.
  - exfalso.
    assert (Ha : a = x).
    { destruct (proj1 (Hin a) (or_introl eq_refl)) as [H|[]]. now symmetry. }
    assert (Hb : b = x).
    { destruct (proj1 (Hin b) (or_intror (or_introl eq_refl))) as [H|[]].
      now symmetry. }
    subst. inversion Hnd as [|? ? Hnot _]; subst. apply Hnot. now left.
Qed.

(** Labels other than the PAD string, on a new preprocessor: PAD keeps
    ID 0 and the labels get the IDs from 1 on. *)
Lemma fit_once_labels (lc nn : bool) (vi : option dict)
    (X : list (list str)) (y : list (list str)) :
  ~ In PAD (chain y) ->
  let d := label_dic (learn_labels (StaticPreprocessor_init lc nn vi) X y) in
  d = extend [(PAD, 0)] (set_iter (chain y)) /\
  contiguous d /\ dict_get d PAD = Some 0.
Proof.
  intro Hpad. cbv zeta.
  assert (E : label_dic (learn_labels (StaticPreprocessor_init lc nn vi) X y)
              = set_labels [(PAD, 0)] (set_iter (chain y))).
  { unfold learn_labels.
    set (s' := learn (StaticPreprocessor_init lc nn vi) X).
    assert (Hl : label_dic s' = [(PAD, 0)])
      by (unfold s'; now rewrite label_dic_learn).
    rewrite Hl. now destruct s'. }
  assert (Hdis : forall t, In t (set_iter (chain y)) ->
                           ~ In t (keys [(PAD, 0)])).
  { intros t Ht [<-|[]]. apply Hpad. now apply set_iter_In. }
  rewrite E, set_labels_new; [|apply set_iter_NoDup | exact Hdis].
  repeat split.
  - rewrite keys_extend. simpl. constructor; [|apply set_iter_NoDup].
    intro H. apply (Hdis PAD H). now left.
  - rewrite length_extend. unfold extend. rewrite values_app.
    rewrite values_combine by now rewrite ids_from_length.
    simpl length. now rewrite (ids_from_app 0 1).
Qed.

End Labels.

(** ** Padding *)

Lemma max_length_bound (seqs : list (list Z)) (s : list Z) :
  In s seqs -> (length s <= max_length seqs)%nat.
Proof.
  induction seqs as [|s' seqs IH]; simpl; [tauto|].
  intros [->|H]; [lia|]. specialize (IH H). lia.
Qed.

Lemma max_length_lengths (a b : list (list Z)) :
  map (@length Z) a = map (@length Z) b -> max_length a = max_length b.
Proof.
  revert b. induction a as [|s a IH]; intros [|s' b] H;
    simpl in *; try discriminate; [reflexivity|].
  injection H as H1 H2. now rewrite H1, (IH b H2).
Qed.

Lemma length_pad_to (n : nat) (s : list Z) :
  (length s <= n)%nat -> length (pad_to n s) = n.
Proof.
  intro H. unfold pad_to, np_int32.
  rewrite length_app, length_map, repeat_length. lia.
Qed.

Lemma pad_sequences_run (seqs : list (list Z)) :
  seqs <> [] ->
  pad_sequences seqs = Ok (map (pad_to (max_length seqs)) seqs).
Proof. destruct seqs; [contradiction | reflexivity]. Qed.

Lemma rectangular_pad (seqs : list (list Z)) (n : nat) :
  n = max_length seqs ->
  rectangular (length seqs) n (map (pad_to n) seqs).
Proof.
  intros ->. split; [apply length_map|].
  apply Forall_map, Forall_forall. intros s Hs.
  apply length_pad_to. now apply max_length_bound.
Qed.

Lemma to_categorical_run (row : list Z) (n : Z) :
  Forall (fun i => 0 <= i < n) row ->
  to_categorical row n
  = Ok (map (fun i => one_hot (Z.to_nat n) (Z.to_nat i)) row).
Proof.
  intro H. unfold to_categorical.
  replace (forallb _ row) with true; [reflexivity|].
  symmetry. apply forallb_forall. intros i Hi.
  rewrite Forall_forall in H. specialize (H i Hi).
  apply andb_true_iff. split; [apply Z.leb_le | apply Z.ltb_lt]; lia.
Qed.

Lemma length_one_hot (n i : nat) : length (one_hot n i) = n.
Proof. unfold one_hot. now rewrite length_map, length_seq. Qed.

(** * The claims *)

Section Claims.
Context {RT : PyRuntime}.

(** C9. The character-type code of a character is the code of the first
    test it passes in the order whitespace 1, digit 2, lowercase 3,
    uppercase 4, hiragana U+3040..U+309F 5, katakana U+30A0..U+30FF 6, and
    7 when it passes none; it is defined on every character and is never
    the PAD code 0. *)
Theorem get_character_type_priority (ch : char) :
  get_character_type ch
  = first_match [(isspace, 1); (isdigit, 2); (islower, 3); (isupper, 4);
                 (code_points 0x3040 0x309F, 5);
                 (code_points 0x30A0 0x30FF, 6)] 7 ch
  /\ get_character_type ch <> 0
  /\ 1 <= get_character_type ch <= 7.
Proof.
  split; [reflexivity|].
  pose proof (get_character_type_range ch). lia.
Qed.

(** C2. With the IDs the BIES table gives to B, I, E and S: a word of one
    character is encoded as the single tag S; a word of [L >= 2]
    characters as B, then [L - 2] times I, then E; a word of two
    characters as exactly B, E. *)
Theorem get_bies_encoding (self : StaticPreprocessor) (word : str)
    (tB tI tE tS : Z) :
  dict_get (bies_dic self) key_B = Some tB ->
  dict_get (bies_dic self) key_I = Some tI ->
  dict_get (bies_dic self) key_E = Some tE ->
  dict_get (bies_dic self) key_S = Some tS ->
  (length word = 1%nat -> get_bies word self = (Ok [tS], self)) /\
  ((2 <= length word)%nat ->
   get_bies word self
   = (Ok ([tB] ++ repeat tI (length word - 2) ++ [tE]), self)) /\
  (length word = 2%nat -> get_bies word self = (Ok [tB; tE], self)).
Proof.
  intros HB HI HE HS.
  assert (Hget : forall k v, dict_get (bies_dic self) k = Some v ->
                             getitem a_bies_dic k self = (Ok v, self)).
  { intros k v H. unfold getitem. simpl getattr. now rewrite H. }
  assert (Hlong : forall n, length word = S (S n) ->
            get_bies word self = (Ok ([tB] ++ repeat tI n ++ [tE]), self)).
  { intros n Hn. unfold get_bies. rewrite Hn. cbn [Nat.eqb].
    rewrite (bind_ok _ _ (Hget _ _ HI)).
    rewrite (bind_ok _ _ (Hget _ _ HB)).
    unfold call at 1. unfold bind at 1. rewrite list_setitem_first.
    rewrite (bind_ok _ _ (Hget _ _ HE)).
    unfold call at 1. unfold bind at 1. rewrite list_setitem_last.
    reflexivity. }
  repeat split.
  - intro H1. unfold get_bies. rewrite H1. cbn [Nat.eqb].
    now rewrite (bind_ok _ _ (Hget _ _ HS)).
  - intro H2. destruct (length word) as [|[|n]] eqn:L; try lia.
    rewrite (Hlong n eq_refl). simpl. now rewrite Nat.sub_0_r.
  - intro H2. now rewrite (Hlong 0%nat H2).
Qed.

(** C10. [transform] leaves the object exactly as it found it, whether it
    returns or raises: every dictionary and both flags are unchanged. *)
Theorem transform_leaves_object_unchanged (X : list (list str))
    (y : option (list (list str))) (self : StaticPreprocessor) :
  let self' := snd (transform X y self) in
  self' = self /\
  word_dic self' = word_dic self /\ char_dic self' = char_dic self /\
  pos_dic self' = pos_dic self /\ label_dic self' = label_dic self /\
  bies_dic self' = bies_dic self /\
  char_type_dic self' = char_type_dic self /\
  _lowercase self' = _lowercase self /\ _num_norm self' = _num_norm self.
Proof.
  assert (H : readonly (transform X y)).
  { unfold transform.
    apply readonly_bind; [apply readonly_transform_loop | intro inputs].
    only_reads. }
  simpl. rewrite (H self). repeat split.
Qed.

(** C6 as amended. The BIES table of a new preprocessor has the four
    entries B:1, I:2, E:3, S:4 and no entry for PAD; [fit] and [transform]
    leave it so. *)
Theorem bies_dic_fixed (lc nn : bool) (vi : option dict) :
  let table := [(key_B, 1); (key_I, 2); (key_E, 3); (key_S, 4)] in
  bies_dic (StaticPreprocessor_init lc nn vi) = table /\
  dict_get table PAD = None /\
  (forall self, fitted self -> bies_dic self = table) /\
  (forall X y self,
     bies_dic self = table -> bies_dic (snd (transform X y self)) = table).
Proof.
  simpl. repeat split.
  - intros self H. now apply fitted_ready in H as (_ & _ & _ & H).
  - intros X y self H.
    assert (R : readonly (transform X y)).
    { unfold transform.
      apply readonly_bind; [apply readonly_transform_loop | intro inputs].
      only_reads. }
    now rewrite (R self).
Qed.

(** X15 (the part of C1 that holds). On a preprocessor that is new or
    fitted ([ready], see [ready_init] and [fitted_ready]), documents that
    tokenize into non-empty words, and labels that are absent or all have
    an entry, [transform] returns five arrays per document; the
    word array repeats the ID of each word once per character of the
    word, the POS array the ID of its POS tag likewise, and all five have
    the length of the document's normalized tokenized text. *)
Theorem transform_streams_aligned (self : StaticPreprocessor)
    (X : list (list str)) (y : option (list (list str))) :
  ready self ->
  forallb (well_tokenized self) X = true ->
  labels_ok self y = true ->
  exists out,
    transform X y self = (Ok (out, option_map (label_ids self) y), self) /\
    x_words out
    = map (fun doc =>
             concat (map (fun w =>
                       repeat (int32 (id_or_unk (word_dic self) w))
                              (length w))
                     (words_of self doc))) X /\
    x_poses out
    = map (fun doc =>
             concat (map (fun wp =>
                       repeat (int32 (id_or_unk (pos_dic self) (snd wp)))
                              (length (fst wp)))
                     (combine (words_of self doc) (poses_of self doc)))) X /\
    length (x_words out) = length X /\
    length (x_chars out) = length X /\
    length (x_bies out) = length X /\
    length (x_poses out) = length X /\
    length (x_types out) = length X /\
    forall i doc, nth_error X i = Some doc ->
      exists a_words a_chars a_bies a_poses a_types,
        nth_error (x_words out) i = Some a_words /\
        nth_error (x_chars out) i = Some a_chars /\
        nth_error (x_bies out) i = Some a_bies /\
        nth_error (x_poses out) i = Some a_poses /\
        nth_error (x_types out) i = Some a_types /\
        length a_words = total_chars (words_of self doc) /\
        length a_chars = total_chars (words_of self doc) /\
        length a_bies = total_chars (words_of self doc) /\
        length a_poses = total_chars (words_of self doc) /\
        length a_types = total_chars (words_of self doc).
Proof.
  intros Hr HX Hy. exists (streams_of self X).
  rewrite (transform_run X y self Hr HX).
  split.
  { destruct y as [y|]; [|reflexivity].
    simpl in Hy. now rewrite Hy. }
  simpl. rewrite !length_map. repeat split.
  intros i doc Hi.
  assert (Hdoc : well_tokenized self doc = true).
  { rewrite forallb_forall in HX. apply HX. eapply nth_error_In, Hi. }
  exists (word_stream self doc), (char_stream self doc),
    (bies_stream self doc), (pos_stream self doc), (type_stream self doc).
  rewrite !nth_error_map, Hi. simpl.
  destruct (stream_lengths self doc Hdoc) as (H1 & H2 & H3 & H4 & H5).
  repeat split; assumption.
Qed.

(** X16 (the part of C3 that holds). On a fitted preprocessor the unknown
    sentinel has ID 1 in the word, character and POS dictionaries.
    [transform] on documents that tokenize into non-empty words returns
    when the labels are absent or all have an entry, and writes that ID
    for every word, character and POS tag that has no entry; when a
    label is given that has no entry in the label dictionary it raises
    [KeyError]. *)
Theorem unknown_tokens_and_labels (self : StaticPreprocessor)
    (X : list (list str)) :
  fitted self ->
  forallb (well_tokenized self) X = true ->
  (dict_get (word_dic self) UNK = Some 1 /\
   dict_get (char_dic self) UNK = Some 1 /\
   dict_get (pos_dic self) UNK = Some 1) /\
  (forall y, labels_ok self y = true ->
     exists out,
       transform X y self = (Ok (out, option_map (label_ids self) y), self) /\
       x_words out
       = map (fun doc =>
                concat (map (fun w =>
                          repeat (match dict_get (word_dic self) w with
                                  | Some v => int32 v
                                  | None => 1
                                  end) (length w))
                        (words_of self doc))) X /\
       x_chars out
       = map (fun doc =>
                map (fun c => match dict_get (char_dic self) [c] with
                              | Some v => int32 v
                              | None => 1
                              end)
                    (concat (words_of self doc))) X /\
       x_poses out
       = map (fun doc =>
                concat (map (fun wp =>
                          repeat (match dict_get (pos_dic self) (snd wp) with
                                  | Some v => int32 v
                                  | None => 1
                                  end) (length (fst wp)))
                        (combine (words_of self doc) (poses_of self doc))))
             X) /\
  (forall y, labels_known self y = false ->
     transform X (Some y) self = (Raise KeyError, self)).
Proof.
  intros Hfit HX.
  pose proof (fitted_ready self Hfit) as Hr.
  assert (E : forall d k, int32 (id_or_unk d k)
                          = match dict_get d k with
                            | Some v => int32 v
                            | None => 1
                            end).
  { intros d k. unfold id_or_unk. now destruct (dict_get d k). }
  split; [|split].
  - destruct Hr as (Hw & Hc & Hp & _). auto.
  - intros y Hy. exists (streams_of self X).
    rewrite (transform_run X y self Hr HX). split; [|repeat split].
    + destruct y as [y|]; [|reflexivity]. simpl in Hy. now rewrite Hy.
    + simpl. apply map_ext. intro doc. unfold word_stream.
      f_equal. apply map_ext. intro w. now rewrite E.
    + simpl. apply map_ext. intro doc. unfold char_stream.
      apply map_ext. intro c. apply E.
    + simpl. apply map_ext. intro doc. unfold pos_stream.
      f_equal. apply map_ext. intro wp. now rewrite E.
  - intros y Hy. rewrite (transform_run X (Some y) self Hr HX).
    now rewrite Hy.
Qed.

(** C7 as amended. On a fitted preprocessor whose character dictionary
    has at most 2^31 entries, and documents that tokenize into non-empty
    words, [transform] returns, and [inverse_transform] applied to its
    character arrays returns, for every character of the normalized
    tokenized documents in order, the character itself when it has an
    entry in the character dictionary and the string ["<UNK>"] when it has
    none; so when every character has an entry it returns exactly the
    characters of the normalized tokenized documents. *)
Theorem inverse_transform_round_trip (self : StaticPreprocessor)
    (X : list (list str)) :
  fitted self ->
  forallb (well_tokenized self) X = true ->
  dict_len (char_dic self) <= 2 ^ 31 ->
  (exists out,
     transform X None self = (Ok (out, None), self) /\
     inverse_transform (Some (x_chars out)) None self
     = (Ok (map (fun doc =>
                   map (fun c => if dict_mem (char_dic self) [c]
                                 then [c] else UNK)
                       (concat (words_of self doc))) X), self)) /\
  ((forall c, In c (concat (corpus_words self X)) ->
              dict_mem (char_dic self) [c] = true) ->
   round_trips self X).
Proof.
  intros Hfit HX Hlen.
  pose proof (fitted_ready self Hfit) as Hr.
  destruct (fitted_contiguous self Hfit) as (_ & Hc & _).
  assert (Ht : transform X None self = (Ok (streams_of self X, None), self))
    by now rewrite (transform_run X None self Hr HX).
  split.
  - exists (streams_of self X). split; [exact Ht|].
    unfold inverse_transform. unfold read at 1. unfold bind at 1.
    simpl x_chars.
    apply comprehension_map_map. intros doc _.
    unfold char_stream. apply decode_chars_unk; auto.
    now destruct Hr as (_ & Hu & _).
  - intro Hknown. exists (streams_of self X). split; [exact Ht|].
    unfold inverse_transform. unfold read at 1. unfold bind at 1.
    simpl x_chars.
    apply comprehension_map_map. intros doc Hdoc.
    unfold char_stream, chars_of. apply decode_chars_run; auto.
    intros c Hin. apply Hknown. unfold corpus_words.
    apply in_concat in Hin as (w & Hw & Hcw).
    apply in_concat. exists w. split; [|exact Hcw].
    apply in_concat. exists (words_of self doc). split; [|exact Hw].
    now apply in_map.
Qed.

(** C5 as amended. When every document tokenizes and labels are given,
    [fit] returns, and: each word and each POS tag without an entry gets
    the next free ID at its first occurrence in the corpus; each character
    without an entry gets the next free ID at its first occurrence within
    the words that are newly registered; nothing is sorted.  The label
    dictionary is assigned in the iteration order of the set of labels:
    when no label has an entry yet, the labels are appended in that
    order. *)
Theorem fit_growth_order (self : StaticPreprocessor) (X : list (list str))
    (y : list (list str)) :
  forallb (tokenizes self) X = true ->
  exists self',
    fit X (Some y) self = (Ok tt, self') /\
    grown_in_order (word_dic self) (word_dic self') (corpus_words self X) /\
    grown_in_order (pos_dic self) (pos_dic self') (corpus_poses self X) /\
    grown_in_order (char_dic self) (char_dic self')
      (chars_of (first_occurrences
                   (unseen (word_dic self) (corpus_words self X)))) /\
    label_dic self' = set_labels (label_dic self) (set_iter (chain y)) /\
    ((forall t, In t (chain y) -> ~ In t (keys (label_dic self))) ->
     label_dic self' = extend (label_dic self) (set_iter (chain y))).
Proof.
  intro HX. exists (learn_labels self X y).
  split; [now apply fit_run|].
  assert (E : forall d s', setattr a_label_dic d s'
              = Build_StaticPreprocessor (_lowercase s') (_num_norm s')
                  (_vocab_init s') (word_dic s') (char_dic s') (pos_dic s')
                  d (bies_dic s') (char_type_dic s'))
    by (intros d s'; now destruct s').
  unfold learn_labels, grown_in_order. rewrite E. simpl.
  rewrite word_dic_learn, char_dic_learn, pos_dic_learn, label_dic_learn.
  rewrite <- !add_keys_closed. repeat split.
  intro Hnew. apply set_labels_new; [apply set_iter_NoDup|].
  intros t Ht. apply Hnew. now apply set_iter_In.
Qed.

(** C4, the failing input. One call of [fit] on a new preprocessor with
    the single label ["<PAD>"] returns, and leaves the label dictionary
    as [{"<PAD>": 1}]: PAD is not at ID 0 and the IDs do not start at 0. *)
Theorem fit_pad_label_moves_pad (lc nn : bool) (vi : option dict) :
  exists self',
    fit [] (Some [[PAD]]) (StaticPreprocessor_init lc nn vi)
    = (Ok tt, self') /\
    label_dic self' = [(PAD, 1)] /\
    dict_get (label_dic self') PAD <> Some 0 /\
    ~ contiguous (label_dic self').
Proof.
  eexists. split; [apply fit_run; reflexivity|].
  unfold learn_labels. rewrite learn_nil.
  change (chain [[PAD]]) with [PAD]. rewrite set_iter_singleton.
  simpl. repeat split.
  - discriminate.
  - intros [_ H]. discriminate.
Qed.

End Claims.

(** C8. For a non-empty batch whose five feature sequences are aligned
    document by document, [DynamicPreprocessor.transform] returns five
    tensors in which every sequence is kept whole and followed by zeros
    up to the length [n] of the longest document, so each tensor has one
    row of [n] entries per document.  Labels with IDs below [n_labels]
    (which counts at least the PAD label) are padded the same way to
    their own longest sequence, and every position becomes the one-hot
    vector of width [n_labels] of its ID, the padded positions that of
    the PAD label 0. *)
Theorem dynamic_transform_pads (self : DynamicPreprocessor.t) (X : streams) :
  x_words X <> [] ->
  aligned X ->
  let n := max_length (x_words X) in
  let pad := fun s => np_int32 s ++ repeat 0 (n - length s) in
  let sents := {| t_words := map pad (x_words X);
                  t_chars := map pad (x_chars X);
                  t_bies := map pad (x_bies X);
                  t_poses := map pad (x_poses X);
                  t_types := map pad (x_types X) |} in
  DynamicPreprocessor.transform X None self = (Ok (sents, None), self) /\
  rectangular (length (x_words X)) n (t_words sents) /\
  rectangular (length (x_words X)) n (t_chars sents) /\
  rectangular (length (x_words X)) n (t_bies sents) /\
  rectangular (length (x_words X)) n (t_poses sents) /\
  rectangular (length (x_words X)) n (t_types sents) /\
  forall y,
    y <> [] ->
    0 < DynamicPreprocessor.n_labels self <= 2 ^ 31 ->
    Forall (Forall (fun i => 0 <= i < DynamicPreprocessor.n_labels self))
      y ->
    let m := max_length y in
    let width := Z.to_nat (DynamicPreprocessor.n_labels self) in
    let cats :=
      map (fun row =>
             map (fun i => one_hot width (Z.to_nat i)) row
             ++ repeat (one_hot width 0) (m - length row)) y in
    DynamicPreprocessor.transform X (Some y) self
    = (Ok (sents, Some cats), self) /\
    rectangular (length y) m cats /\
    Forall (Forall (fun v => length v = width)) cats.
Proof.
  intros Hne (Hc & Hb & Hp & Ht). cbv zeta.
  set (n := max_length (x_words X)).
  change (fun s => np_int32 s ++ repeat 0 (n - length s)) with (pad_to n).
  assert (Hnil : forall l : list (list Z),
            map (@length Z) l = map (@length Z) (x_words X) -> l <> []).
  { intros l Hl ->. destruct (x_words X); [contradiction | discriminate]. }
  assert (Hpad : forall l : list (list Z),
            map (@length Z) l = map (@length Z) (x_words X) ->
            pad_sequences l = Ok (map (pad_to n) l)).
  { intros l Hl. rewrite (pad_sequences_run l (Hnil l Hl)).
    now rewrite (max_length_lengths l (x_words X) Hl). }
  assert (Hrect : forall l : list (list Z),
            map (@length Z) l = map (@length Z) (x_words X) ->
            rectangular (length (x_words X)) n (map (pad_to n) l)).
  { intros l Hl.
    replace (length (x_words X)) with (length l)
      by (rewrite <- (length_map (@length Z) l), Hl; apply length_map).
    apply rectangular_pad. unfold n. symmetry.
    now apply max_length_lengths. }
  assert (Hfeat : forall (A : Type) (k : tensors -> M DynamicPreprocessor.t A),
            (let (words, chars, bies, poses, types) := X in
             words <- call (pad_sequences words) ;;
             chars <- call (pad_sequences chars) ;;
             bies <- call (pad_sequences bies) ;;
             poses <- call (pad_sequences poses) ;;
             types <- call (pad_sequences types) ;;
             k {| t_words := words; t_chars := chars; t_bies := bies;
                  t_poses := poses; t_types := types |}) self
            = k {| t_words := map (pad_to n) (x_words X);
                   t_chars := map (pad_to n) (x_chars X);
                   t_bies := map (pad_to n) (x_bies X);
                   t_poses := map (pad_to n) (x_poses X);
                   t_types := map (pad_to n) (x_types X) |} self).
  { intros A k. destruct X as [ws cs bs ps ts]. simpl in *.
    unfold call, bind.
    now rewrite (Hpad ws eq_refl), (Hpad cs Hc), (Hpad bs Hb),
      (Hpad ps Hp), (Hpad ts Ht). }
  split.
  { unfold DynamicPreprocessor.transform.
    exact (Hfeat _ (fun sents => y <- ret None ;; ret (sents, y))). }
  do 5 (split; [apply Hrect; auto|]).
  intros y Hy Hn Hlab.
  set (m := max_length y). set (width := Z.to_nat (DynamicPreprocessor.n_labels self)).
  split; [|split].
  - unfold DynamicPreprocessor.transform.
    refine (eq_trans (Hfeat _ (fun sents =>
               y0 <- (y1 <- call (pad_sequences y) ;;
                      y2 <- comprehension (fun y_ =>
                              n0 <- read DynamicPreprocessor.n_labels ;;
                              call (to_categorical y_ n0)) y1 ;;
                      ret (Some y2)) ;;
               ret (sents, y0))) _).
    unfold bind at 1. unfold bind at 1. unfold call at 1.
    rewrite (pad_sequences_run y Hy). fold m.
    assert (Hcomp :
      comprehension (fun y_ => n0 <- read DynamicPreprocessor.n_labels ;;
                               call (to_categorical y_ n0))
        (map (pad_to m) y) self
      = (Ok (map (fun row =>
                    map (fun i => one_hot width (Z.to_nat i)) row
                    ++ repeat (one_hot width 0) (m - length row)) y),
         self));
      [|now rewrite (bind_ok _ _ Hcomp)].
    apply comprehension_map_map.
    intros row Hrow. unfold bind, read, call.
    pose proof Hlab as Hlab'.
    rewrite Forall_forall in Hlab'. specialize (Hlab' row Hrow).
    assert (Hid : np_int32 row = row).
    { apply Forall_int32_id. eapply Forall_impl; [|exact Hlab'].
      simpl. intros i Hi. lia. }
    rewrite to_categorical_run.
    + unfold pad_to. rewrite Hid, map_app, map_repeat. reflexivity.
    + unfold pad_to. rewrite Hid. apply Forall_app. split; [exact Hlab'|].
      apply Forall_forall. intros i Hi.
      apply repeat_spec in Hi. subst i. lia.
  - split; [apply length_map|].
    apply Forall_map, Forall_forall. intros row Hrow.
    rewrite length_app, length_map, repeat_length.
    pose proof (max_length_bound y row Hrow). fold m in H. lia.
  - apply Forall_map, Forall_forall. intros row Hrow.
    apply Forall_app. split.
    + apply Forall_map, Forall_forall. intros i _. apply length_one_hot.
    + apply Forall_forall. intros v Hv. apply repeat_spec in Hv. subst v.
      apply length_one_hot.
Qed.

(** * The claims on concrete inputs *)

Lemma demo_fitted : @fitted ascii_runtime demo.
Proof.
  apply (@fitted_first ascii_runtime true true None demo_corpus
           (Some demo_labels)).
  vm_compute. reflexivity.
Qed.

(** C2 on the words "a", "ab" and "abcd". *)
Lemma get_bies_encoding_witness :
  let self := StaticPreprocessor_init true true None in
  get_bies (of_string "a") self = (Ok [4], self) /\
  get_bies (of_string "ab") self = (Ok [1; 3], self) /\
  get_bies (of_string "abcd") self = (Ok [1; 2; 2; 3], self).
Proof.
  intro self.
  destruct (get_bies_encoding self (of_string "a") 1 2 3 4
              eq_refl eq_refl eq_refl eq_refl) as (H1 & _ & _).
  destruct (get_bies_encoding self (of_string "ab") 1 2 3 4
              eq_refl eq_refl eq_refl eq_refl) as (_ & _ & H2).
  destruct (get_bies_encoding self (of_string "abcd") 1 2 3 4
              eq_refl eq_refl eq_refl eq_refl) as (_ & H4 & _).
  split; [exact (H1 eq_refl)|].
  split; [exact (H2 eq_refl)|].
  apply H4. simpl. lia.
Defined.

(** C6 as stated fails: the table of a new preprocessor is not the
    mapping with the five entries PAD:0, B:1, I:2, E:3, S:4. *)
Lemma bies_dic_is_not_five_entries :
  ~ same_mapping (bies_dic (StaticPreprocessor_init true true None))
      [(PAD, 0); (key_B, 1); (key_I, 2); (key_E, 3); (key_S, 4)].
Proof. intro H. specialize (H PAD). discriminate. Qed.

(** C6 as amended, on the fitted preprocessor [demo]. *)
Lemma bies_dic_fixed_witness :
  bies_dic demo = [(key_B, 1); (key_I, 2); (key_E, 3); (key_S, 4)] /\
  dict_get (bies_dic demo) PAD = None.
Proof.
  destruct (@bies_dic_fixed ascii_runtime true true None)
    as (_ & Hpad & Hfit & _).
  rewrite (Hfit demo demo_fitted). split; [reflexivity | exact Hpad].
Defined.

(** X15 on the corpus [demo] was fitted on, with its labels. *)
Lemma transform_streams_aligned_witness :
  exists out,
    @transform ascii_runtime demo_corpus (Some demo_labels) demo
    = (Ok (out, Some [[2; 1]]), demo) /\
    x_words out = [[2; 2; 3; 3; 2; 2; 4; 4; 4]] /\
    x_poses out = [[2; 2; 2; 2; 2; 2; 2; 2; 2]] /\
    length (x_chars out) = 1%nat.
Proof.
  destruct (@transform_streams_aligned ascii_runtime demo demo_corpus
              (Some demo_labels) (fitted_ready demo demo_fitted))
    as (out & Ht & Hw & Hp & _ & Hc & _).
  - vm_compute. reflexivity.
  - vm_compute. reflexivity.
  - exists out. split; [exact Ht|].
    split; [rewrite Hw; vm_compute; reflexivity|].
    split; [rewrite Hp; vm_compute; reflexivity | exact Hc].
Defined.

Lemma bare_fitted : @fitted ascii_runtime bare.
Proof.
  apply (@fitted_first ascii_runtime true true None [] (Some demo_labels)).
  vm_compute. reflexivity.
Qed.

(** X16 on [bare], which has seen no document: the word "q", its character
    and its POS tag all have no entry and are written as 1; the label "X"
    has no entry either. *)
Lemma unknown_tokens_and_labels_witness :
  (exists out,
     @transform ascii_runtime [[of_string "q"]] None bare
     = (Ok (out, None), bare) /\
     x_words out = [[1]] /\ x_chars out = [[1]] /\ x_poses out = [[1]]) /\
  @transform ascii_runtime [[of_string "q"]] (Some [[of_string "X"]]) bare
  = (Raise KeyError, bare).
Proof.
  assert (HX : forallb (@well_tokenized ascii_runtime bare)
                 [[of_string "q"]] = true) by (vm_compute; reflexivity).
  destruct (@unknown_tokens_and_labels ascii_runtime bare
              [[of_string "q"]] bare_fitted HX) as (_ & Hok & Hraise).
  split.
  - destruct (Hok None eq_refl) as (out & Ht & Hw & Hc & Hp).
    exists out. split; [exact Ht|].
    split; [rewrite Hw; vm_compute; reflexivity|].
    split; [rewrite Hc; vm_compute; reflexivity|].
    rewrite Hp; vm_compute; reflexivity.
  - apply Hraise. vm_compute. reflexivity.
Defined.

(** C9 on a blank, a digit, "b", "B", hiragana "a", katakana "a" and
    the ideograph U+4E00. *)
Lemma get_character_type_examples :
  map (@get_character_type ascii_runtime)
    [0x20; 0x37; 0x62; 0x42; 0x3042; 0x30A2; 0x4E00]%N
  = [1; 2; 3; 4; 5; 6; 7].
Proof. reflexivity. Qed.

(** C4, a second failing input: with the labels "b", "<PAD>", "a", which
    the runtime iterates as "a", "<PAD>", "b", the labels "<PAD>" and "b"
    share ID 2 and nothing has ID 0. *)
Lemma pad_label_shares_an_id :
  label_dic (snd (@fit ascii_runtime []
                    (Some [[of_string "b"; PAD; of_string "a"]])
                    (StaticPreprocessor_init true true None)))
  = [(PAD, 2); (of_string "a", 1); (of_string "b", 2)].
Proof. vm_compute. reflexivity. Qed.

(** C7 as stated fails: [demo] has never seen the character "q", encodes
    it as the unknown sentinel and decodes that to "<UNK>". *)
Lemma round_trip_fails_on_unseen_character :
  @fitted ascii_runtime demo /\
  @inverse_transform (Some [[1]]) None demo = (Ok [[UNK]], demo) /\
  ~ @round_trips ascii_runtime demo [[of_string "q"]].
Proof.
  split; [exact demo_fitted|]. split; [vm_compute; reflexivity|].
  intros (out & Ht & Hi).
  vm_compute in Ht. inversion Ht; subst out; clear Ht.
  vm_compute in Hi. discriminate.
Qed.

(** C7 as amended, on [demo]: its own corpus comes back whole, and the
    document "a q", whose "q" it has never seen, as "a", "<UNK>". *)
Lemma inverse_transform_round_trip_witness :
  @round_trips ascii_runtime demo demo_corpus /\
  exists out,
    @transform ascii_runtime [[of_string "a q"]] None demo
    = (Ok (out, None), demo) /\
    inverse_transform (Some (x_chars out)) None demo
    = (Ok [[of_string "a"; UNK]], demo).
Proof.
  split.
  - destruct (@inverse_transform_round_trip ascii_runtime demo demo_corpus
                demo_fitted) as [_ H].
    + vm_compute. reflexivity.
    + vm_compute. discriminate.
    + apply H. intros c Hc. vm_compute in Hc.
      repeat (destruct Hc as [<-|Hc]; [vm_compute; reflexivity|]).
      destruct Hc.
  - destruct (@inverse_transform_round_trip ascii_runtime demo
                [[of_string "a q"]] demo_fitted) as [(out & Ht & Hi) _].
    + vm_compute. reflexivity.
    + vm_compute. discriminate.
    + exists out. split; [exact Ht|]. rewrite Hi.
      vm_compute. reflexivity.
Defined.

(** C5 as stated fails: the runtime iterates the set of the labels "O",
    "B" as "B", "O", so "B" gets ID 1 though "O" occurs first. *)
Lemma label_order_is_not_first_occurrence :
  exists self',
    @fit ascii_runtime [] (Some demo_labels)
      (StaticPreprocessor_init true true None) = (Ok tt, self') /\
    label_dic self' = [(PAD, 0); (of_string "B", 1); (of_string "O", 2)] /\
    ~ grown_in_order [(PAD, 0)] (label_dic self') (chain demo_labels).
Proof.
  eexists. split; [vm_compute; reflexivity|].
  split; [reflexivity|].
  unfold grown_in_order. vm_compute. discriminate.
Qed.

(** The characters of a word that already has an entry are not
    registered: with the words "<UNK>", "K", "U" the character "K" gets
    ID 2 and "U" gets ID 3, though "U" occurs first in the text. *)
Lemma characters_of_known_words_are_skipped :
  char_dic (snd (@fit ascii_runtime [[of_string "<UNK> K U"]] (Some [])
                   (StaticPreprocessor_init false true None)))
  = [(PAD, 0); (UNK, 1); (of_string "K", 2); (of_string "U", 3)].
Proof. vm_compute. reflexivity. Qed.

(** C5 as amended, on the corpus and labels of [demo]. *)
Lemma fit_growth_order_witness :
  exists self',
    @fit ascii_runtime demo_corpus (Some demo_labels)
      (StaticPreprocessor_init true true None) = (Ok tt, self') /\
    keys (word_dic self')
    = [PAD; UNK; of_string "ab"; of_string "c0"; of_string "xyz"] /\
    values (word_dic self') = [0; 1; 2; 3; 4] /\
    keys (label_dic self') = [PAD; of_string "B"; of_string "O"].
Proof.
  destruct (@fit_growth_order ascii_runtime
              (StaticPreprocessor_init true true None) demo_corpus
              demo_labels)
    as (self' & Hfit & Hw & _ & _ & Hl & _).
  - vm_compute. reflexivity.
  - exists self'. unfold grown_in_order in Hw.
    split; [exact Hfit|].
    split; [rewrite Hw; vm_compute; reflexivity|].
    split; [rewrite Hw; vm_compute; reflexivity|].
    rewrite Hl. vm_compute. reflexivity.
Defined.

(** C8 on documents of 3, 5 and 2 characters with three labels. *)
Lemma dynamic_transform_pads_witness :
  exists sents cats,
    DynamicPreprocessor.transform demo_batch (Some [[1; 0; 2]; [2; 2; 1; 1; 0]; [1; 1]])
      {| DynamicPreprocessor.n_labels := 3 |}
    = (Ok (sents, Some cats), {| DynamicPreprocessor.n_labels := 3 |}) /\
    t_words sents = [[2; 2; 2; 0; 0]; [3; 3; 4; 4; 4]; [5; 5; 0; 0; 0]] /\
    rectangular 3 5 (t_chars sents) /\
    nth_error cats 2
    = Some [[0; 1; 0]; [0; 1; 0]; [1; 0; 0]; [1; 0; 0]; [1; 0; 0]].
Proof.
  assert (Hne : x_words demo_batch <> []) by discriminate.
  assert (Hal : aligned demo_batch) by (repeat split).
  destruct (dynamic_transform_pads {| DynamicPreprocessor.n_labels := 3 |} demo_batch Hne Hal)
    as (_ & _ & Hc & _ & _ & _ & Hy).
  destruct (Hy [[1; 0; 2]; [2; 2; 1; 1; 0]; [1; 1]]) as (Ht & _ & _).
  - discriminate.
  - simpl. lia.
  - repeat constructor; simpl; lia.
  - eexists. eexists. split; [exact Ht|].
    split; [reflexivity|]. split; [exact Hc | reflexivity].
Defined.

(** * Further properties *)

(** ** [normalize_number] *)

Lemma is_number_char_zero : is_number_char 0x30%N = true.
Proof. reflexivity. Qed.

(** X1. [normalize_number] keeps the length of the text, leaves no digit
    but the ASCII zero, and changes nothing when applied again. *)
Theorem normalize_number_idempotent (text : str) :
  length (normalize_number text) = length text /\
  forallb (fun c => implb (is_number_char c) (N.eqb c 0x30%N))
    (normalize_number text) = true /\
  normalize_number (normalize_number text) = normalize_number text.
Proof.
  unfold normalize_number. split; [apply length_map|]. split.
  - apply forallb_forall. intros c Hc.
    apply in_map_iff in Hc as (c0 & <- & _).
    destruct (is_number_char c0) eqn:E; [reflexivity|].
    now rewrite E.
  - rewrite map_map. apply map_ext. intro c.
    destruct (is_number_char c) eqn:E; [reflexivity | now rewrite E].
Qed.

(** ** [tokenize] *)

Lemma split_on_not_nil (sep : char) (cur s : str) : split_on sep cur s <> [].
Proof.
  revert cur. induction s as [|c r IH]; intro cur; simpl; [discriminate|].
  destruct (N.eqb c sep); [discriminate | apply IH].
Qed.

Lemma split_on_no_sep (sep : char) (cur s : str) :
  existsb (fun c => N.eqb c sep) s = false ->
  split_on sep cur s = [rev cur ++ s].
Proof.
  revert cur. induction s as [|c r IH]; intros cur H; simpl in *.
  - now rewrite app_nil_r.
  - apply orb_false_iff in H as [Hc Hr]. rewrite Hc, (IH _ Hr).
    simpl. now rewrite <- app_assoc.
Qed.

Lemma split_on_sep (sep : char) (cur s : str) :
  existsb (fun c => N.eqb c sep) s = true ->
  exists a b rest,
    split_on sep cur s = (rev cur ++ a) :: b :: rest /\ ~ In sep a.
Proof.
  revert cur. induction s as [|c r IH]; intros cur H; simpl in *;
    [discriminate|].
  destruct (N.eqb c sep) eqn:Hc.
  - destruct (split_on sep [] r) as [|b rest] eqn:E;
      [now apply split_on_not_nil in E|].
    exists [], b, rest. rewrite app_nil_r. auto.
  - simpl in H. destruct (IH (c :: cur) H) as (a & b & rest & E & Ha).
    exists (c :: a), b, rest. split.
    + rewrite E. simpl. now rewrite <- app_assoc.
    + intros [->|Hin]; [|auto]. now rewrite N.eqb_refl in Hc.
Qed.

Lemma surface_of_no_tab (chunk : str) : ~ In 0x09%N (surface_of chunk).
Proof.
  unfold surface_of, split.
  destruct (existsb (fun c => N.eqb c 0x09%N) chunk) eqn:E.
  - destruct (split_on_sep 0x09%N [] chunk E) as (a & b & rest & -> & Ha).
    exact Ha.
  - rewrite (split_on_no_sep _ _ _ E). simpl. intro Hin.
    assert (H : existsb (fun c => N.eqb c 0x09%N) chunk = true)
      by (apply existsb_exists; exists 0x09%N; auto).
    congruence.
Qed.

Section Tokenize.
Context {RT : PyRuntime}.

Lemma tokenize_chunks_run (chunks ws ps : list str) :
  forallb chunk_ok chunks = true ->
  tokenize_chunks chunks ws ps
  = Ok (ws ++ map surface_of (filter nonempty chunks),
        ps ++ map pos_of (filter nonempty chunks)).
Proof.
  revert ws ps.
  induction chunks as [|chunk rest IH]; intros ws ps H;
    cbn [tokenize_chunks].
  - simpl. now rewrite !app_nil_r.
  - simpl in H. apply andb_true_iff in H as [Hc Hrest].
    destruct chunk as [|c chunk]; [now apply IH|].
    unfold chunk_ok, has_tab in Hc.
    destruct (split_on_sep 0x09%N [] (c :: chunk) Hc)
      as (a & b & tl & E & _).
    cbn [filter nonempty map]. unfold surface_of, pos_of, split.
    rewrite E. cbn [nth_error hd nth]. rewrite (IH _ _ Hrest).
    now rewrite <- !app_assoc.
Qed.

Lemma tokenize_chunks_raise (chunks ws ps : list str) :
  forallb chunk_ok chunks = false ->
  tokenize_chunks chunks ws ps = Raise IndexError.
Proof.
  revert ws ps.
  induction chunks as [|chunk rest IH]; intros ws ps H;
    cbn [tokenize_chunks]; [discriminate|].
  simpl in H. destruct chunk as [|c chunk]; [now apply IH|].
  destruct (chunk_ok (c :: chunk)) eqn:Hc.
  - unfold chunk_ok, has_tab in Hc.
    destruct (split_on_sep 0x09%N [] (c :: chunk) Hc)
      as (a & b & tl & E & _).
    unfold split. rewrite E. cbn [nth_error]. now apply IH.
  - unfold chunk_ok, has_tab in Hc. unfold split.
    now rewrite (split_on_no_sep _ _ _ Hc).
Qed.

(** [tokenize] raises nothing but [IndexError]. *)
Lemma tokenize_raises_IndexError (text : str) (e : exn) :
  tokenize text = Raise e -> e = IndexError.
Proof.
  unfold tokenize. fold (chunks_of text).
  destruct (forallb chunk_ok (chunks_of text)) eqn:E.
  - now rewrite (tokenize_chunks_run _ _ _ E).
  - rewrite (tokenize_chunks_raise _ _ _ E). congruence.
Qed.

(** X2. When every line of the tagger's output but the last is empty or
    holds a tab, [tokenize] returns one word and one POS tag for each
    non-empty line, in order, and no word holds a tab. *)
Theorem tokenize_returns (text : str) :
  forallb chunk_ok (chunks_of text) = true ->
  exists words poses,
    tokenize text = Ok (words, poses) /\
    words = map surface_of (filter nonempty (chunks_of text)) /\
    poses = map pos_of (filter nonempty (chunks_of text)) /\
    length words = length poses /\
    Forall (fun w => ~ In 0x09%N w) words.
Proof.
  intro H.
  exists (map surface_of (filter nonempty (chunks_of text))),
    (map pos_of (filter nonempty (chunks_of text))).
  split; [|split; [reflexivity|split; [reflexivity|split]]].
  - unfold tokenize. fold (chunks_of text).
    now rewrite (tokenize_chunks_run _ _ _ H).
  - now rewrite !length_map.
  - apply Forall_map, Forall_forall. intros ch _.
    apply surface_of_no_tab.
Qed.

(** X3. When some non-empty line of the tagger's output, the last line
    apart, holds no tab, [tokenize] raises [IndexError]; it never raises
    anything else. *)
Theorem tokenize_raises (text : str) :
  (forallb chunk_ok (chunks_of text) = false ->
   tokenize text = Raise IndexError) /\
  (forall e, tokenize text = Raise e ->
             e = IndexError /\ forallb chunk_ok (chunks_of text) = false).
Proof.
  split.
  - intro H. unfold tokenize. fold (chunks_of text).
    now apply tokenize_chunks_raise.
  - intros e He. split; [now apply tokenize_raises_IndexError in He|].
    destruct (forallb chunk_ok (chunks_of text)) eqn:E; [|reflexivity].
    unfold tokenize in He. fold (chunks_of text) in He.
    rewrite (tokenize_chunks_run _ _ _ E) in He. discriminate.
Qed.

Lemma dropwhile_app_all (p : char -> bool) (a b : str) :
  forallb p a = true -> dropwhile p (a ++ b) = dropwhile p b.
Proof.
  induction a as [|c a IH]; simpl; [reflexivity|].
  intro H. apply andb_true_iff in H as [Hc Ha]. rewrite Hc. auto.
Qed.

(** X4. Whitespace at the end of the text does not matter to
    [tokenize]. *)
Theorem tokenize_ignores_trailing_space (text trailing : str) :
  forallb isspace trailing = true ->
  tokenize (text ++ trailing) = tokenize text.
Proof.
  intro H. unfold tokenize, rstrip. rewrite rev_app_distr.
  rewrite dropwhile_app_all; [reflexivity|].
  rewrite forallb_forall in *. intros c Hc. apply H.
  now apply in_rev.
Qed.

End Tokenize.

(** ** [get_bies] and [transform], the failures *)

Section TransformFailures.
Context {RT : PyRuntime}.

(** X5. With the BIES table of [__init__], [get_bies] raises [IndexError]
    on the empty word and returns one tag per character on every other
    word; in both cases the object is unchanged. *)
Theorem get_bies_length (self : StaticPreprocessor) (word : str) :
  bies_dic self = [(key_B, 1); (key_I, 2); (key_E, 3); (key_S, 4)] ->
  (word = [] -> get_bies word self = (Raise IndexError, self)) /\
  (word <> [] ->
   exists tags, get_bies word self = (Ok tags, self) /\
                length tags = length word).
Proof.
  intro H. rewrite (get_bies_run word self H). split.
  - now intros ->.
  - intro Hw. destruct word as [|c w]; [contradiction|].
    exists (bies_tags (c :: w)). split; [reflexivity|].
    apply length_bies_tags. discriminate.
Qed.

Lemma transform_doc_raise (doc : list str) (acc : streams)
    (s : StaticPreprocessor) :
  ready s -> well_tokenized s doc = false ->
  transform_doc doc acc s = (Raise IndexError, s).
Proof.
  intros (Hw & Hc & Hp & Hb) Hdoc.
  unfold well_tokenized, tokenizes, words_of, tokens_of in Hdoc.
  unfold transform_doc.
  rewrite (bind_ok _ _ (normalized_run doc s)).
  destruct (tokenize (norm_text (_lowercase s) (_num_norm s) doc))
    as [[ws ps]|e] eqn:E.
  - cbn [fst andb] in Hdoc. unfold call at 1. unfold bind at 1.
    rewrite (bind_ok _ _
      (comprehension_map _
         (fun w => repeat (id_or_unk (word_dic s) w) (length w)) ws s
         (fun w _ => broadcast_run a_word_dic w w s Hw))).
    rewrite (bind_ok _ _
      (comprehension_map _
         (fun w => map (fun c => id_or_unk (char_dic s) [c]) w) ws s
         (fun w _ => get_char_ids_run w s Hc))).
    assert (Hbies : comprehension get_bies ws s = (Raise IndexError, s)).
    { assert (Hdoc' : forallb (fun w : str => negb (length w =? 0)%nat) ws
                      = false) by exact Hdoc.
      rewrite (comprehension_cases get_bies bies_tags
                 (fun w : str => negb (length w =? 0)%nat) IndexError).
      - now rewrite Hdoc'.
      - intros w Hne. rewrite (get_bies_run w s Hb).
        now destruct (length w =? 0)%nat.
      - intros w Hne. rewrite (get_bies_run w s Hb).
        now destruct (length w =? 0)%nat. }
    now rewrite (bind_raise _ _ Hbies).
  - apply tokenize_raises_IndexError in E as ->. reflexivity.
Qed.

Lemma transform_loop_raise (X : list (list str)) (acc : streams)
    (s : StaticPreprocessor) :
  ready s -> forallb (well_tokenized s) X = false ->
  transform_loop X acc s = (Raise IndexError, s).
Proof.
  intro Hr. revert acc. induction X as [|doc X IH]; intros acc HX;
    [discriminate|].
  simpl in HX. simpl transform_loop.
  destruct (well_tokenized s doc) eqn:Hd.
  - rewrite (bind_ok _ _ (transform_doc_run doc acc s Hr Hd)).
    now apply IH.
  - now rewrite (bind_raise _ _ (transform_doc_raise doc acc s Hr Hd)).
Qed.

Lemma forallb_false_In {A} (p : A -> bool) (l : list A) (x : A) :
  In x l -> p x = false -> forallb p l = false.
Proof.
  intros Hin Hx. destruct (forallb p l) eqn:E; [|reflexivity].
  rewrite forallb_forall in E. rewrite (E x Hin) in Hx. discriminate.
Qed.

(** A line of the tagger's output that begins with a tab gives a word
    without characters, and [transform] raises [IndexError] on it. *)
Lemma transform_raises_on_empty_surface (self : StaticPreprocessor)
    (X : list (list str)) (y : option (list (list str)))
    (doc : list str) (rest : str) :
  ready self ->
  In doc X ->
  In (0x09%N :: rest)
     (chunks_of (norm_text (_lowercase self) (_num_norm self) doc)) ->
  transform X y self = (Raise IndexError, self).
Proof.
  intros Hr Hdoc Hline.
  assert (Hbad : well_tokenized self doc = false).
  { unfold well_tokenized, tokenizes, words_of, tokens_of.
    set (text := norm_text (_lowercase self) (_num_norm self) doc) in *.
    destruct (forallb chunk_ok (chunks_of text)) eqn:E.
    - unfold tokenize. fold (chunks_of text).
      rewrite (tokenize_chunks_run _ _ _ E). cbn [app fst andb].
      apply (forallb_false_In _ _ (surface_of (0x09%N :: rest)));
        [|reflexivity].
      apply in_map. apply filter_In. auto.
    - unfold tokenize. fold (chunks_of text).
      now rewrite (tokenize_chunks_raise _ _ _ E). }
  unfold transform.
  rewrite (bind_raise _ _
             (transform_loop_raise X _ self Hr
                (forallb_false_In _ _ _ Hdoc Hbad))).
  reflexivity.
Qed.

(** X6. On a new or fitted preprocessor [transform] has three outcomes
    and no other.  It raises [IndexError] when some document does not
    tokenize or has an empty word, whatever the labels; it raises
    [KeyError] when the documents are fine and some label has no entry;
    it returns otherwise.  No assertion ever fails. *)
Theorem transform_outcomes (self : StaticPreprocessor)
    (X : list (list str)) (y : option (list (list str))) :
  ready self ->
  transform X y self
  = if negb (forallb (well_tokenized self) X)
    then (Raise IndexError, self)
    else if labels_ok self y
    then (Ok (streams_of self X, option_map (label_ids self) y), self)
    else (Raise KeyError, self).
Proof.
  intro Hr. destruct (forallb (well_tokenized self) X) eqn:HX; simpl.
  - rewrite (transform_run X y self Hr HX).
    destruct y as [y|]; [|reflexivity]. simpl.
    now destruct (labels_known self y).
  - unfold transform.
    now rewrite (bind_raise _ _ (transform_loop_raise X _ self Hr HX)).
Qed.

End TransformFailures.

(** ** C1 and C3, the failing input

    A document with a carriage return inside, as every text with Windows
    line ends has.  The tagger prints the carriage return as a word of
    its own; [splitlines] cuts that line in front of the tab, so the word
    [tokenize] reads from it has no characters, and [get_bies] has no
    case for it. *)

(** C1, the failing input. With a tagger that prints a carriage return as
    a word of its own, [tokenize] reads the document "x", CR, LF, "y" as
    the words "x", "", "y"; [fit] on it returns, and [transform] raises
    [IndexError] instead of returning five arrays, on the fitted
    preprocessor as on a new one. *)
Theorem transform_raises_on_carriage_return :
  let self := StaticPreprocessor_init true true None in
  @tokenize cr_runtime (concat cr_doc)
  = Ok ([of_string "x"; []; of_string "y"],
        [of_string "n-g-*"; of_string "sym-g-*"; of_string "n-g-*"]) /\
  @transform cr_runtime [cr_doc] None self = (Raise IndexError, self) /\
  exists self',
    @fit cr_runtime [cr_doc] (Some [[of_string "O"]]) self = (Ok tt, self') /\
    @fitted cr_runtime self' /\
    @transform cr_runtime [cr_doc] None self' = (Raise IndexError, self').
Proof.
  split; [vm_compute; reflexivity|].
  split; [vm_compute; reflexivity|].
  eexists. split; [vm_compute; reflexivity|]. split.
  - apply (@fitted_first cr_runtime true true None [cr_doc]
             (Some [[of_string "O"]])).
    vm_compute. reflexivity.
  - vm_compute. reflexivity.
Qed.

(** C3, the failing input. The preprocessor [cr_demo] is fitted on
    [demo_corpus].  In the document "x", CR, LF, "y" the word "" has no
    entry in its word dictionary; [transform] does not write the unknown
    sentinel for it but raises [IndexError], and with the label "X",
    which has no entry either, it raises [IndexError] too, not
    [KeyError]. *)
Theorem transform_raises_on_unseen_empty_word :
  @fitted cr_runtime cr_demo /\
  @words_of cr_runtime cr_demo cr_doc = [of_string "x"; []; of_string "y"] /\
  dict_mem (word_dic cr_demo) [] = false /\
  @transform cr_runtime [cr_doc] None cr_demo = (Raise IndexError, cr_demo) /\
  labels_known cr_demo [[of_string "X"]] = false /\
  @transform cr_runtime [cr_doc] (Some [[of_string "X"]]) cr_demo
  = (Raise IndexError, cr_demo).
Proof.
  split.
  { apply (@fitted_first cr_runtime true true None demo_corpus
             (Some demo_labels)).
    vm_compute. reflexivity. }
  repeat split; vm_compute; reflexivity.
Qed.

(** [__init__] keeps a dictionary given as [vocab_init] whole. *)
Lemma vocab_init_kept (lc nn : bool) (d : dict) :
  _vocab_init (StaticPreprocessor_init lc nn (Some d)) = d.
Proof. now destruct d. Qed.

(** ** [fit], every outcome *)

Lemma keys_dict_set (d : dict) (k : str) (v : Z) :
  keys (dict_set d k v) = if dict_mem d k then keys d else keys d ++ [k].
Proof.
  unfold dict_mem, keys.
  induction d as [|[k' v'] d IH]; simpl; [reflexivity|].
  destruct (str_eqb k' k); simpl; [reflexivity|].
  rewrite IH. now destruct (dict_get d k).
Qed.

Lemma dict_get_dict_set (d : dict) (k k' : str) (v : Z) :
  dict_get (dict_set d k v) k'
  = if str_eqb k k' then Some v else dict_get d k'.
Proof.
  induction d as [|[k0 v0] d IH]; simpl.
  - reflexivity.
  - destruct (str_eqb k0 k) eqn:E0; simpl.
    + apply str_eqb_eq in E0. subst k0. now destruct (str_eqb k k').
    + rewrite IH. destruct (str_eqb k0 k') eqn:E1; [|reflexivity].
      apply str_eqb_eq in E1. subst k'. apply str_eqb_neq in E0.
      assert (E2 : str_eqb k k0 = false)
        by (apply str_eqb_neq; intro H; apply E0; now symmetry).
      now rewrite E2.
Qed.

Lemma dict_len_keys (d d' : dict) : keys d = keys d' -> dict_len d = dict_len d'.
Proof.
  intro H. unfold dict_len. f_equal.
  rewrite <- (length_map fst d), <- (length_map fst d').
  unfold keys in H. now rewrite H.
Qed.

Lemma add_keys_covers (d : dict) (l : list str) (k : str) :
  In k l -> dict_mem (add_keys d l) k = true.
Proof.
  intro H. apply dict_mem_true.
  rewrite add_keys_closed, keys_extend. apply in_or_app.
  destruct (in_dec str_eq_dec k (keys d)) as [Hk|Hk]; [now left|].
  right. apply first_occurrences_In, unseen_In. auto.
Qed.

Lemma add_keys_known (d : dict) (l : list str) :
  (forall k, In k l -> dict_mem d k = true) -> add_keys d l = d.
Proof.
  intro H. rewrite add_keys_closed.
  replace (unseen d l) with (@nil str); [apply extend_nil|].
  symmetry. unfold unseen.
  induction l as [|k l IH]; [reflexivity|]. simpl.
  rewrite (H k (or_introl eq_refl)). simpl.
  apply IH. intros k' Hk'. apply H. now right.
Qed.

Lemma unseen_known (d : dict) (l : list str) :
  (forall k, In k l -> dict_mem d k = true) -> unseen d l = [].
Proof.
  intro H. unfold unseen.
  induction l as [|k l IH]; [reflexivity|]. simpl.
  rewrite (H k (or_introl eq_refl)). simpl.
  apply IH. intros k' Hk'. apply H. now right.
Qed.

Lemma set_labels_keys (l : list str) (d : dict) (t : str) :
  In t (keys (set_labels d l)) <-> In t (keys d) \/ In t l.
Proof.
  revert d. induction l as [|t0 l IH]; intro d.
  - simpl. tauto.
  - change (set_labels d (t0 :: l))
      with (set_labels (dict_set d t0 (dict_len d)) l).
    rewrite IH, keys_dict_set. simpl.
    destruct (dict_mem d t0) eqn:E.
    + apply dict_mem_true in E. split; [tauto|].
      intros [H|[<-|H]]; auto.
    + rewrite in_app_iff. simpl. tauto.
Qed.

(** Storing labels that all have an entry gives each of them the length
    of the dictionary as its ID and changes nothing else. *)
Lemma set_labels_known (l : list str) (d : dict) :
  (forall t, In t l -> dict_mem d t = true) ->
  keys (set_labels d l) = keys d /\
  forall t, dict_get (set_labels d l) t
            = if in_dec str_eq_dec t l then Some (dict_len d)
              else dict_get d t.
Proof.
  revert d. induction l as [|t0 l IH]; intros d H.
  - split; [reflexivity|]. intro t. now destruct (in_dec str_eq_dec t []).
  - change (set_labels d (t0 :: l))
      with (set_labels (dict_set d t0 (dict_len d)) l).
    assert (Hk : keys (dict_set d t0 (dict_len d)) = keys d).
    { rewrite keys_dict_set. now rewrite (H t0 (or_introl eq_refl)). }
    destruct (IH (dict_set d t0 (dict_len d))) as [IHk IHg].
    { intros t Ht. apply dict_mem_true. rewrite Hk.
      apply dict_mem_true, H. now right. }
    split; [congruence|].
    intro t. rewrite IHg, (dict_len_keys _ _ Hk), dict_get_dict_set.
    destruct (in_dec str_eq_dec t l) as [Hin|Hin];
      destruct (in_dec str_eq_dec t (t0 :: l)) as [Hin'|Hin'];
      try reflexivity.
    + exfalso. apply Hin'. now right.
    + destruct Hin' as [->|Hin']; [|contradiction].
      now rewrite str_eqb_refl.
    + str_cases t0 t; [|reflexivity]. exfalso. apply Hin'. now left.
Qed.

Section FitOutcomes.
Context {RT : PyRuntime}.

Lemma fit_doc_IndexError (doc : list str) (s : StaticPreprocessor) :
  tokenizes s doc = false -> fit_doc doc s = (Raise IndexError, s).
Proof.
  unfold tokenizes, fit_doc.
  rewrite (bind_ok _ _ (normalized_run doc s)).
  destruct (tokenize (norm_text (_lowercase s) (_num_norm s) doc))
    as [wp|e] eqn:E; [discriminate | intros _].
  apply tokenize_raises_IndexError in E as ->. reflexivity.
Qed.

Lemma fit_docs_cases (X : list (list str)) (s : StaticPreprocessor) :
  for_ X fit_doc s
  = if forallb (tokenizes s) X then (Ok tt, learn s X)
    else (Raise IndexError, learn s (take_while (tokenizes s) X)).
Proof.
  revert s. induction X as [|doc X IH]; intro s.
  - simpl. now rewrite learn_nil.
  - simpl. destruct (tokenizes s doc) eqn:Hd; simpl.
    + rewrite (bind_ok _ _ (fit_doc_run doc s Hd)). rewrite IH.
      rewrite (tokenizes_flags (learn s [doc]) s)
        by (apply lowercase_learn || apply num_norm_learn).
      now rewrite !learn_cons.
    + rewrite (bind_raise _ _ (fit_doc_IndexError doc s Hd)).
      now rewrite learn_nil.
Qed.

Lemma fit_cases (X : list (list str)) (y : option (list (list str)))
    (s : StaticPreprocessor) :
  fit X y s
  = if forallb (tokenizes s) X
    then match y with
         | Some y => (Ok tt, learn_labels s X y)
         | None => (Raise TypeError, learn s X)
         end
    else (Raise IndexError, learn s (take_while (tokenizes s) X)).
Proof.
  unfold fit, bind. rewrite fit_docs_cases.
  destruct (forallb (tokenizes s) X); [|reflexivity].
  destruct y as [y|]; [apply label_loop_run | reflexivity].
Qed.

Lemma learn_labels_fields (s : StaticPreprocessor) (X : list (list str))
    (y : list (list str)) :
  word_dic (learn_labels s X y) = word_dic (learn s X) /\
  char_dic (learn_labels s X y) = char_dic (learn s X) /\
  pos_dic (learn_labels s X y) = pos_dic (learn s X) /\
  label_dic (learn_labels s X y)
  = set_labels (label_dic (learn s X)) (set_iter (chain y)) /\
  _lowercase (learn_labels s X y) = _lowercase s /\
  _num_norm (learn_labels s X y) = _num_norm s /\
  _vocab_init (learn_labels s X y) = _vocab_init s /\
  bies_dic (learn_labels s X y) = bies_dic s /\
  char_type_dic (learn_labels s X y) = char_type_dic s.
Proof.
  unfold learn_labels.
  rewrite <- (lowercase_learn s X), <- (num_norm_learn s X),
    <- (vocab_init_learn s X), <- (bies_dic_learn s X),
    <- (char_type_dic_learn s X).
  now destruct (learn s X).
Qed.

(** X7. [fit] returns when every document tokenizes and labels are given.
    Without labels it raises [TypeError], but only after the word,
    character and POS dictionaries have grown exactly as in a successful
    call; when a document does not tokenize it raises [IndexError]. *)
Theorem fit_outcomes (X : list (list str)) (y : option (list (list str)))
    (self : StaticPreprocessor) :
  fst (fit X y self)
  = (if forallb (tokenizes self) X
     then match y with Some _ => Ok tt | None => Raise TypeError end
     else Raise IndexError) /\
  (forall y',
     forallb (tokenizes self) X = true ->
     let failed := snd (fit X None self) in
     let fitted' := snd (fit X (Some y') self) in
     word_dic failed = word_dic fitted' /\
     char_dic failed = char_dic fitted' /\
     pos_dic failed = pos_dic fitted' /\
     label_dic failed = label_dic self).
Proof.
  split.
  - rewrite fit_cases. destruct (forallb (tokenizes self) X);
      [now destruct y | reflexivity].
  - intros y' H. rewrite !fit_cases, H. simpl.
    destruct (learn_labels_fields self X y') as (Hw & Hc & Hp & _).
    rewrite Hw, Hc, Hp, label_dic_learn. auto.
Qed.

Lemma learn_grows (s : StaticPreprocessor) (X : list (list str)) :
  (exists ws, word_dic (learn s X) = word_dic s ++ ws) /\
  (exists cs, char_dic (learn s X) = char_dic s ++ cs) /\
  (exists ps, pos_dic (learn s X) = pos_dic s ++ ps).
Proof.
  rewrite word_dic_learn, char_dic_learn, pos_dic_learn.
  rewrite !add_keys_closed. unfold extend.
  split; [|split]; eexists; reflexivity.
Qed.

(** X8. Whatever its outcome, [fit] only appends to the word, character
    and POS dictionaries: no entry is removed, moved or renumbered.  It
    never touches the two flags, [_vocab_init], the BIES table or the
    character-type dictionary. *)
Theorem fit_only_appends (X : list (list str))
    (y : option (list (list str))) (self : StaticPreprocessor) :
  let self' := snd (fit X y self) in
  (exists ws, word_dic self' = word_dic self ++ ws) /\
  (exists cs, char_dic self' = char_dic self ++ cs) /\
  (exists ps, pos_dic self' = pos_dic self ++ ps) /\
  _lowercase self' = _lowercase self /\
  _num_norm self' = _num_norm self /\
  _vocab_init self' = _vocab_init self /\
  bies_dic self' = bies_dic self /\
  char_type_dic self' = char_type_dic self.
Proof.
  assert (Hlearn : forall X0,
    (exists ws, word_dic (learn self X0) = word_dic self ++ ws) /\
    (exists cs, char_dic (learn self X0) = char_dic self ++ cs) /\
    (exists ps, pos_dic (learn self X0) = pos_dic self ++ ps) /\
    _lowercase (learn self X0) = _lowercase self /\
    _num_norm (learn self X0) = _num_norm self /\
    _vocab_init (learn self X0) = _vocab_init self /\
    bies_dic (learn self X0) = bies_dic self /\
    char_type_dic (learn self X0) = char_type_dic self).
  { intro X0. destruct (learn_grows self X0) as (Hw & Hc & Hp).
    rewrite lowercase_learn, num_norm_learn, vocab_init_learn,
      bies_dic_learn, char_type_dic_learn. auto 10. }
  cbv zeta. rewrite fit_cases.
  destruct (forallb (tokenizes self) X); [|apply Hlearn].
  destruct y as [y|]; [|apply Hlearn]. simpl.
  destruct (learn_labels_fields self X y)
    as (Hw & Hc & Hp & _ & Hl & Hn & Hv & Hb & Ht).
  rewrite Hw, Hc, Hp, Hl, Hn, Hv, Hb, Ht.
  destruct (learn_grows self X) as (Gw & Gc & Gp). auto 10.
Qed.

End FitOutcomes.

(** ** [fit] and then [transform] *)

Section FitThenTransform.
Context {RT : PyRuntime}.

Lemma well_tokenized_tokenizes (s : StaticPreprocessor)
    (X : list (list str)) :
  forallb (well_tokenized s) X = true -> forallb (tokenizes s) X = true.
Proof.
  rewrite !forallb_forall. intros H doc Hdoc.
  specialize (H doc Hdoc). unfold well_tokenized in H.
  now apply andb_true_iff in H as [H _].
Qed.

Lemma learn_labels_covers (s : StaticPreprocessor) (X : list (list str))
    (y : list (list str)) :
  (forall w, In w (corpus_words s X) ->
             dict_mem (word_dic (learn_labels s X y)) w = true) /\
  (forall p, In p (corpus_poses s X) ->
             dict_mem (pos_dic (learn_labels s X y)) p = true) /\
  (forall t, In t (chain y) ->
             dict_mem (label_dic (learn_labels s X y)) t = true).
Proof.
  destruct (learn_labels_fields s X y) as (Hw & _ & Hp & Hl & _).
  rewrite Hw, Hp, Hl, word_dic_learn, pos_dic_learn.
  repeat split.
  - intros w H. now apply add_keys_covers.
  - intros p H. now apply add_keys_covers.
  - intros t H. apply dict_mem_true, set_labels_keys. right.
    now apply set_iter_In.
Qed.

(** X9. On a new or fitted preprocessor and documents that tokenize into
    non-empty words, [fit_transform] with labels returns: after [fit]
    every word and POS tag of the corpus and every label has an entry, so
    the label lookup of [transform] cannot fail. *)
Theorem fit_transform_returns (self : StaticPreprocessor)
    (X : list (list str)) (y : list (list str)) :
  ready self ->
  forallb (well_tokenized self) X = true ->
  exists self' out ids,
    fit X (Some y) self = (Ok tt, self') /\
    fit_transform X (Some y) self = (Ok (out, Some ids), self') /\
    transform X (Some y) self' = (Ok (out, Some ids), self') /\
    (forall w, In w (corpus_words self X) ->
               dict_mem (word_dic self') w = true) /\
    (forall p, In p (corpus_poses self X) ->
               dict_mem (pos_dic self') p = true) /\
    (forall t, In t (chain y) -> dict_mem (label_dic self') t = true).
Proof.
  intros Hr HX.
  pose proof (well_tokenized_tokenizes self X HX) as Htok.
  set (self' := learn_labels self X y).
  destruct (learn_labels_fields self X y) as (_ & _ & _ & _ & Hlc & Hnn & _).
  destruct (learn_labels_covers self X y) as (Cw & Cp & Cl).
  assert (HX' : forallb (well_tokenized self') X = true)
    by now rewrite (well_tokenized_flags self' self Hlc Hnn).
  assert (Hy : labels_known self' y = true).
  { unfold labels_known. apply forallb_forall. intros sent Hs.
    apply forallb_forall. intros t Ht. apply Cl.
    unfold chain. apply in_concat. eauto. }
  assert (Ht : transform X (Some y) self'
               = (Ok (streams_of self' X, Some (label_ids self' y)), self')).
  { rewrite (transform_run X (Some y) self'
               (ready_learn_labels self X y Hr) HX').
    now rewrite Hy. }
  exists self', (streams_of self' X), (label_ids self' y).
  split; [now apply fit_run|].
  split; [|split; [exact Ht | auto]].
  unfold fit_transform. now rewrite (bind_ok _ _ (fit_run X y self Htok)).
Qed.

(** X10. Fitting a second time on the same documents returns and leaves
    the word, character and POS dictionaries as the first call left
    them. *)
Theorem refit_same_documents (self self1 : StaticPreprocessor)
    (X : list (list str)) (y y' : option (list (list str))) :
  fit X y self = (Ok tt, self1) ->
  y' <> None ->
  exists self2,
    fit X y' self1 = (Ok tt, self2) /\
    word_dic self2 = word_dic self1 /\
    char_dic self2 = char_dic self1 /\
    pos_dic self2 = pos_dic self1.
Proof.
  intros H Hy'. apply fit_inv in H as (y0 & -> & Htok & ->).
  destruct y' as [y1|]; [clear Hy' | contradiction].
  destruct (learn_labels_fields self X y0) as (_ & _ & _ & _ & Hlc & Hnn & _).
  set (self1 := learn_labels self X y0) in *.
  assert (Htok1 : forallb (tokenizes self1) X = true)
    by now rewrite (tokenizes_flags self1 self Hlc Hnn).
  assert (Hws : corpus_words self1 X = corpus_words self X)
    by (unfold corpus_words; now rewrite (words_of_flags self1 self Hlc Hnn)).
  assert (Hps : corpus_poses self1 X = corpus_poses self X)
    by (unfold corpus_poses; now rewrite (poses_of_flags self1 self Hlc Hnn)).
  destruct (learn_labels_covers self X y0) as (Cw & Cp & _).
  fold self1 in Cw, Cp.
  exists (learn_labels self1 X y1). split; [now apply fit_run|].
  destruct (learn_labels_fields self1 X y1) as (Hw & Hc & Hp & _).
  rewrite Hw, Hc, Hp, word_dic_learn, char_dic_learn, pos_dic_learn.
  rewrite Hws, Hps.
  rewrite (unseen_known (word_dic self1) (corpus_words self X) Cw).
  rewrite !add_keys_known; auto.
Qed.

(** X11. Fitting a second time with the same labels returns, and then
    every label of the second call has the same ID, the length of the
    label dictionary; the dictionary has the keys it had. *)
Theorem refit_labels_share_id (self self1 self2 : StaticPreprocessor)
    (X X' : list (list str)) (y : list (list str)) :
  fit X (Some y) self = (Ok tt, self1) ->
  fit X' (Some y) self1 = (Ok tt, self2) ->
  keys (label_dic self2) = keys (label_dic self1) /\
  forall t, In t (chain y) ->
            dict_get (label_dic self2) t = Some (dict_len (label_dic self1)).
Proof.
  intros H1 H2.
  apply fit_inv in H1 as (y0 & E0 & _ & ->). injection E0 as <-.
  apply fit_inv in H2 as (y1 & E1 & _ & ->). injection E1 as <-.
  destruct (learn_labels_covers self X y) as (_ & _ & Cl).
  set (self1 := learn_labels self X y) in *.
  destruct (learn_labels_fields self1 X' y) as (_ & _ & _ & Hl & _).
  rewrite Hl, label_dic_learn.
  destruct (set_labels_known (set_iter (chain y)) (label_dic self1))
    as [Hk Hg].
  { intros t Ht. apply Cl. now apply set_iter_In. }
  split; [exact Hk|].
  intros t Ht. rewrite Hg.
  destruct (in_dec str_eq_dec t (set_iter (chain y))) as [_|Hn];
    [reflexivity|].
  exfalso. apply Hn. now apply set_iter_In.
Qed.

End FitThenTransform.

(** ** [inverse_transform] *)

Lemma In_dict_get (d : dict) (k : str) (v : Z) :
  NoDup (keys d) -> In (k, v) d -> dict_get d k = Some v.
Proof.
  induction d as [|[k' v'] d IH]; simpl; [tauto|].
  intros Hnd Hin. inversion Hnd as [|? ? Hnot Hnd']; subst.
  destruct Hin as [E|Hin].
  - inversion E; subst. now rewrite str_eqb_refl.
  - destruct (str_eqb k' k) eqn:Ek; [|auto].
    apply str_eqb_eq in Ek. subst k'. exfalso. apply Hnot.
    unfold keys. change k with (fst (k, v)). now apply in_map.
Qed.

Lemma idict_get_Some_In (m : idict) (i : Z) (k : str) :
  idict_get m i = Some k -> In (i, k) m.
Proof.
  induction m as [|[i' k'] m IH]; simpl; [discriminate|].
  destruct (Z.eqb_spec i' i) as [->|Hi].
  - intros [= ->]. now left.
  - intro H. right. auto.
Qed.

Lemma idict_get_None_iff (m : idict) (i : Z) :
  idict_get m i = None <-> ~ In i (map fst m).
Proof.
  induction m as [|[i' k'] m IH]; simpl; [tauto|].
  destruct (Z.eqb_spec i' i) as [->|Hi].
  - split; [discriminate | intro H; exfalso; apply H; now left].
  - rewrite IH. tauto.
Qed.

(** In a well-numbered dictionary the IDs that decode are those from 0 to
    the length less one, and each decodes to the key that has it. *)
Lemma invert_in_range (d : dict) (i : Z) :
  contiguous d ->
  if in_range d i
  then exists k, idict_get (invert d) i = Some k /\ dict_get d k = Some i
  else idict_get (invert d) i = None.
Proof.
  intro Hd. pose proof (contiguous_values_NoDup d Hd) as Hnd.
  destruct Hd as [Hk Hv].
  rewrite invert_swap by exact Hnd.
  assert (Hfst : map fst (map (fun ci : str * Z => (snd ci, fst ci)) d)
                 = values d)
    by (rewrite map_map; reflexivity).
  assert (Hin : In i (values d) <-> 0 <= i < dict_len d).
  { rewrite Hv, In_ids_from. unfold dict_len. lia. }
  unfold in_range.
  destruct ((0 <=? i) && (i <? dict_len d)) eqn:E.
  - apply andb_true_iff in E as [E1 E2].
    apply Z.leb_le in E1. apply Z.ltb_lt in E2.
    destruct (idict_get (map (fun ci : str * Z => (snd ci, fst ci)) d) i)
      as [k|] eqn:G.
    + exists k. split; [reflexivity|].
      apply idict_get_Some_In in G. apply in_map_iff in G as ([k0 i0] & E & G).
      simpl in E. inversion E; subst. now apply In_dict_get.
    + exfalso. apply idict_get_None_iff in G. apply G.
      rewrite Hfst. apply Hin. lia.
  - apply idict_get_None_iff. rewrite Hfst, Hin.
    apply andb_false_iff in E as [E|E];
      [apply Z.leb_gt in E | apply Z.ltb_ge in E]; lia.
Qed.

Section Decode.
Context {RT : PyRuntime}.

Lemma decode_rows_run (d : dict) (X : list (list Z))
    (s : StaticPreprocessor) :
  contiguous d ->
  comprehension (comprehension (idict_getitem (invert d))) X s
  = if forallb (forallb (in_range d)) X
    then (Ok (map (map (fun i => match idict_get (invert d) i with
                                 | Some k => k
                                 | None => []
                                 end)) X), s)
    else (Raise KeyError, s).
Proof.
  intro Hd.
  assert (Hrow : forall row,
    comprehension (idict_getitem (invert d)) row s
    = if forallb (in_range d) row
      then (Ok (map (fun i => match idict_get (invert d) i with
                              | Some k => k
                              | None => []
                              end) row), s)
      else (Raise KeyError, s)).
  { intro row. apply comprehension_cases; intros i Hi;
      pose proof (invert_in_range d i Hd) as H; rewrite Hi in H;
      unfold idict_getitem.
    - destruct H as (k & -> & _). reflexivity.
    - now rewrite H. }
  apply comprehension_cases; intros row Hr; rewrite Hrow, Hr; reflexivity.
Qed.

(** X12. With a character dictionary whose IDs are 0, 1, 2, ... in
    insertion order (as [fit] keeps it), [inverse_transform] on arrays of
    character IDs returns exactly when every ID is one of the
    dictionary, and then each decoded string has the ID it was decoded
    from; any other ID raises [KeyError].  The second argument is not
    looked at. *)
Theorem inverse_transform_ids (self : StaticPreprocessor)
    (X : list (list Z)) (docs : option (list (list Z))) :
  contiguous (char_dic self) ->
  (forallb (forallb (in_range (char_dic self))) X = true ->
   exists rows,
     inverse_transform (Some X) docs self = (Ok rows, self) /\
     map (map (dict_get (char_dic self))) rows = map (map Some) X) /\
  (forallb (forallb (in_range (char_dic self))) X = false ->
   inverse_transform (Some X) docs self = (Raise KeyError, self)).
Proof.
  intro Hd. unfold inverse_transform, read, bind.
  rewrite (decode_rows_run (char_dic self) X self Hd).
  split; intro H; rewrite H; [|reflexivity].
  eexists. split; [reflexivity|].
  rewrite map_map. apply map_ext_in. intros row Hrow.
  rewrite map_map. apply map_ext_in. intros i Hi.
  rewrite forallb_forall in H. specialize (H row Hrow).
  rewrite forallb_forall in H. specialize (H i Hi).
  pose proof (invert_in_range (char_dic self) i Hd) as G.
  rewrite H in G. destruct G as (k & -> & G). exact G.
Qed.

Lemma decode_labels_run (y : list (list str)) (s : StaticPreprocessor) :
  contiguous (label_dic s) -> labels_known s y = true ->
  comprehension (comprehension (idict_getitem (invert (label_dic s))))
    (label_ids s y) s
  = (Ok y, s).
Proof.
  intros Hd Hy. unfold label_ids, labels_known in *.
  rewrite <- (map_id y) at 2.
  apply comprehension_map_map. intros sent Hs.
  rewrite forallb_forall in Hy. specialize (Hy sent Hs).
  rewrite <- (map_id sent) at 2.
  apply comprehension_map_map. intros t Ht.
  rewrite forallb_forall in Hy. specialize (Hy t Ht).
  unfold dict_mem in Hy. unfold idict_getitem.
  destruct (dict_get (label_dic s) t) as [v|] eqn:E; [|discriminate].
  now rewrite (invert_get _ _ _ Hd E).
Qed.

(** X13. On a new or fitted preprocessor ([ready]) and documents that
    tokenize into non-empty words: when the label dictionary is numbered
    0, 1, 2, ... in insertion order and every label has an entry,
    [transform] returns, and decoding the label IDs it returned gives
    back the labels. *)
Theorem label_round_trip (self : StaticPreprocessor)
    (X : list (list str)) (y : list (list str)) :
  ready self ->
  forallb (well_tokenized self) X = true ->
  contiguous (label_dic self) ->
  labels_known self y = true ->
  exists out ids,
    transform X (Some y) self = (Ok (out, Some ids), self) /\
    inverse_transform None (Some ids) self = (Ok y, self).
Proof.
  intros Hr HX Hd Hy.
  exists (streams_of self X), (label_ids self y). split.
  - rewrite (transform_run X (Some y) self Hr HX). now rewrite Hy.
  - unfold inverse_transform, read, bind.
    now apply decode_labels_run.
Qed.

Lemma round_trips_known (s : StaticPreprocessor) (X : list (list str)) :
  ready s -> contiguous (char_dic s) ->
  forallb (well_tokenized s) X = true ->
  dict_len (char_dic s) <= 2 ^ 31 ->
  (forall c, In c (concat (corpus_words s X)) ->
             dict_mem (char_dic s) [c] = true) ->
  round_trips s X.
Proof.
  intros Hr Hc HX Hlen Hknown.
  exists (streams_of s X). split.
  - now rewrite (transform_run X None s Hr HX).
  - unfold inverse_transform. unfold read at 1. unfold bind at 1.
    simpl x_chars.
    apply comprehension_map_map. intros doc Hdoc.
    unfold char_stream, chars_of. apply decode_chars_run; auto.
    intros c Hin. apply Hknown. unfold corpus_words.
    apply in_concat in Hin as (w & Hw & Hcw).
    apply in_concat. exists w. split; [|exact Hcw].
    apply in_concat. exists (words_of s doc). split; [|exact Hw].
    now apply in_map.
Qed.

(** X14. A new preprocessor fitted on documents that tokenize into
    non-empty words, none of them the string ["<PAD>"] or ["<UNK>"],
    decodes the character arrays of these documents back to their
    characters, as long as the character dictionary has at most 2^31
    entries. *)
Theorem fitted_corpus_round_trip (lc nn : bool) (vi : option dict)
    (X : list (list str)) (y : option (list (list str)))
    (self : StaticPreprocessor) :
  fit X y (StaticPreprocessor_init lc nn vi) = (Ok tt, self) ->
  forallb (well_tokenized self) X = true ->
  ~ In PAD (corpus_words self X) ->
  ~ In UNK (corpus_words self X) ->
  dict_len (char_dic self) <= 2 ^ 31 ->
  round_trips self X.
Proof.
  intros Hfit HX Hpad Hunk Hlen.
  assert (Hfitted : fitted self) by (eapply fitted_first; exact Hfit).
  destruct (fitted_contiguous self Hfitted) as (_ & Hc & _).
  apply round_trips_known;
    [now apply fitted_ready | exact Hc | exact HX | exact Hlen |].
  clear Hfitted Hc HX Hlen.
  apply fit_inv in Hfit as (y0 & -> & _ & ->).
  set (s0 := StaticPreprocessor_init lc nn vi) in *.
  destruct (learn_labels_fields s0 X y0) as (_ & Hcd & _ & _ & Hlc & Hnn & _).
  assert (Hws : corpus_words (learn_labels s0 X y0) X = corpus_words s0 X).
  { unfold corpus_words.
    now rewrite (words_of_flags (learn_labels s0 X y0) s0 Hlc Hnn). }
  rewrite Hws in *. rewrite Hcd, char_dic_learn.
  intros c Hin. apply add_keys_covers.
  apply in_concat in Hin as (w & Hw & Hcw).
  unfold chars_of. apply (in_map (fun c0 : char => [c0])).
  apply in_concat. exists w.
  split; [|exact Hcw].
  apply first_occurrences_In, unseen_In. split; [exact Hw|].
  simpl. intros [<-|[<-|[]]]; contradiction.
Qed.

End Decode.

(** * The further properties on concrete inputs *)

Lemma demo_fit :
  @fit ascii_runtime demo_corpus (Some demo_labels)
    (StaticPreprocessor_init true true None) = (Ok tt, demo).
Proof. vm_compute. reflexivity. Qed.

Lemma demo_ready : ready demo.
Proof. exact (@fitted_ready ascii_runtime demo demo_fitted). Qed.

Lemma demo_labels_contiguous : contiguous (label_dic demo).
Proof.
  split; [|reflexivity].
  vm_compute. repeat constructor; simpl; intuition discriminate.
Qed.

(** X2 on the text "ab c3". *)
Lemma tokenize_returns_witness :
  @tokenize ascii_runtime (of_string "ab c3")
  = Ok ([of_string "ab"; of_string "c3"],
        [of_string "n-g-*"; of_string "n-g-*"]).
Proof.
  destruct (@tokenize_returns ascii_runtime (of_string "ab c3"))
    as (ws & ps & H & Hw & Hp & _).
  - vm_compute. reflexivity.
  - rewrite H, Hw, Hp. vm_compute. reflexivity.
Defined.

(** X3 on a tagger whose output line for "ab" holds no tab. *)
Lemma tokenize_raises_witness :
  @tokenize echo_runtime (of_string "ab") = Raise IndexError.
Proof.
  apply (proj1 (@tokenize_raises echo_runtime (of_string "ab"))).
  vm_compute. reflexivity.
Defined.

(** X4 on the text "ab c3" followed by a blank and a line feed. *)
Lemma tokenize_ignores_trailing_space_witness :
  @tokenize ascii_runtime (of_string "ab c3" ++ [0x20; 0x0A]%N)
  = @tokenize ascii_runtime (of_string "ab c3").
Proof.
  apply (@tokenize_ignores_trailing_space ascii_runtime).
  vm_compute. reflexivity.
Defined.

(** X5 on the empty word and on "abc". *)
Lemma get_bies_length_witness :
  let self := StaticPreprocessor_init true true None in
  get_bies [] self = (Raise IndexError, self) /\
  exists tags, get_bies (of_string "abc") self = (Ok tags, self) /\
               length tags = 3%nat.
Proof.
  intro self.
  destruct (get_bies_length self [] eq_refl) as [H0 _].
  destruct (get_bies_length self (of_string "abc") eq_refl) as [_ H3].
  split; [exact (H0 eq_refl)|].
  apply H3. discriminate.
Defined.

(** X6 on a document that does not tokenize. *)
Lemma transform_outcomes_witness :
  let self := StaticPreprocessor_init true true None in
  @transform echo_runtime [[of_string "ab"]] None self
  = (Raise IndexError, self).
Proof.
  intro self.
  rewrite (@transform_outcomes echo_runtime self [[of_string "ab"]] None
             (ready_init true true None)).
  vm_compute. reflexivity.
Defined.

(** X7 on the corpus of [demo], without labels. *)
Lemma fit_outcomes_witness :
  let self := StaticPreprocessor_init true true None in
  fst (@fit ascii_runtime demo_corpus None self) = Raise TypeError /\
  word_dic (snd (@fit ascii_runtime demo_corpus None self)) = word_dic demo /\
  label_dic (snd (@fit ascii_runtime demo_corpus None self)) = [(PAD, 0)].
Proof.
  intro self.
  destruct (@fit_outcomes ascii_runtime demo_corpus None self) as [H1 H2].
  destruct (H2 demo_labels) as (Hw & _ & _ & Hl);
    [vm_compute; reflexivity|].
  split; [rewrite H1; vm_compute; reflexivity|].
  split; [exact Hw | exact Hl].
Defined.

(** X9 on the corpus and labels of [demo]. *)
Lemma fit_transform_returns_witness :
  exists self' out ids,
    @fit_transform ascii_runtime demo_corpus (Some demo_labels)
      (StaticPreprocessor_init true true None)
    = (Ok (out, Some ids), self') /\
    dict_mem (word_dic self') (of_string "xyz") = true.
Proof.
  destruct (@fit_transform_returns ascii_runtime
              (StaticPreprocessor_init true true None) demo_corpus
              demo_labels (ready_init true true None))
    as (self' & out & ids & _ & H & _ & Hw & _).
  - vm_compute. reflexivity.
  - exists self', out, ids. split; [exact H|].
    apply Hw. vm_compute. auto.
Defined.

(** X10 on the corpus of [demo], fitted twice. *)
Lemma refit_same_documents_witness :
  exists self2,
    @fit ascii_runtime demo_corpus (Some demo_labels) demo = (Ok tt, self2) /\
    word_dic self2 = word_dic demo /\
    char_dic self2 = char_dic demo /\
    pos_dic self2 = pos_dic demo.
Proof.
  apply (@refit_same_documents ascii_runtime
           (StaticPreprocessor_init true true None) demo demo_corpus
           (Some demo_labels) (Some demo_labels) demo_fit).
  discriminate.
Defined.

(** X11 on the labels of [demo], fitted twice: "O" and "B" both get 3. *)
Lemma refit_labels_share_id_witness :
  let self2 := snd (@fit ascii_runtime [] (Some demo_labels) demo) in
  dict_get (label_dic self2) (of_string "O") = Some 3 /\
  dict_get (label_dic self2) (of_string "B") = Some 3.
Proof.
  intro self2.
  assert (H2 : @fit ascii_runtime [] (Some demo_labels) demo
               = (Ok tt, self2)) by (vm_compute; reflexivity).
  destruct (@refit_labels_share_id ascii_runtime
              (StaticPreprocessor_init true true None) demo self2
              demo_corpus [] demo_labels demo_fit H2) as [_ H].
  split; apply H; vm_compute; auto.
Defined.

(** X12 on [demo]: the IDs 2, 3, 0 decode, the ID 99 does not. *)
Lemma inverse_transform_ids_witness :
  (exists rows,
     inverse_transform (Some [[2; 3; 0]]) None demo = (Ok rows, demo) /\
     map (map (dict_get (char_dic demo))) rows
     = [[Some 2; Some 3; Some 0]]) /\
  inverse_transform (Some [[2; 99]]) None demo = (Raise KeyError, demo).
Proof.
  destruct (@fitted_contiguous ascii_runtime demo demo_fitted)
    as (_ & Hc & _).
  split.
  - destruct (inverse_transform_ids demo [[2; 3; 0]] None Hc) as [H _].
    apply H. vm_compute. reflexivity.
  - destruct (inverse_transform_ids demo [[2; 99]] None Hc) as [_ H].
    apply H. vm_compute. reflexivity.
Defined.

(** X13 on [demo] with its corpus and labels. *)
Lemma label_round_trip_witness :
  exists out ids,
    @transform ascii_runtime demo_corpus (Some demo_labels) demo
    = (Ok (out, Some ids), demo) /\
    inverse_transform None (Some ids) demo = (Ok demo_labels, demo).
Proof.
  apply (@label_round_trip ascii_runtime demo demo_corpus demo_labels
           demo_ready).
  - vm_compute. reflexivity.
  - exact demo_labels_contiguous.
  - vm_compute. reflexivity.
Defined.

(** X14 on [demo] and its corpus. *)
Lemma fitted_corpus_round_trip_witness :
  @round_trips ascii_runtime demo demo_corpus.
Proof.
  apply (@fitted_corpus_round_trip ascii_runtime true true None demo_corpus
           (Some demo_labels) demo demo_fit).
  - vm_compute. reflexivity.
  - vm_compute. intuition discriminate.
  - vm_compute. intuition discriminate.
  - vm_compute. discriminate.
Defined.
